(** * prob_mbrl: the cart-pole environment and the research utilities

    A shallow embedding of [prob_mbrl/envs/cartpole/env.py] and
    [prob_mbrl/utils/core.py].

    Conventions of the embedding:
    - a floating-point tensor entry is a real number ([R]); rounding,
      overflow, underflow and NaN are outside the model;
    - a one-dimensional tensor is a [list R], a matrix is the list of its
      rows;
    - a Python call that can raise returns a [py.result]: [py.Ok v] for a
      normal return, [py.Raise e] for an exception that leaves the call. *)

From Stdlib Require Import Ascii String.
From Stdlib Require Import Reals Lra Lia List Bool Arith Permutation.
Import ListNotations.

(* ===================================================================== *)
(** * Definitions                                                         *)
(* ===================================================================== *)

(** ** Python exceptions *)

Module py.

(** The exception classes the modelled code can meet.  The last two derive
    from [BaseException] only, the others from [Exception]. *)
Inductive exn : Type :=
| IndexError
| RuntimeError
| TypeError
| ValueError
| OSError
| StopIteration
| UnboundLocalError
| KeyboardInterrupt
| SystemExit.

(** [isinstance(e, Exception)]. *)
Definition is_Exception (e : exn) : bool :=
  match e with
  | KeyboardInterrupt | SystemExit => false
  | _ => true
  end.

Inductive result (A : Type) : Type :=
| Ok (a : A)
| Raise (e : exn).
Arguments Ok {A} a.
Arguments Raise {A} e.

Definition bind {A B : Type} (m : result A) (k : A -> result B) : result B :=
  match m with
  | Ok a => k a
  | Raise e => Raise e
  end.

(** A local variable of a function frame: unbound until first assigned. *)
Definition read_local {A : Type} (v : option A) : result A :=
  match v with
  | Some a => Ok a
  | None => Raise UnboundLocalError
  end.

End py.

Notation "x <- m ;; k" := (py.bind m (fun x => k))
  (at level 61, m at next level, right associativity).

(** ** Tensor helpers *)

Module torch.

Open Scope R_scope.

(** [t[..., i]] on the last dimension. *)
Definition index (t : list R) (i : nat) : py.result R :=
  match nth_error t i with
  | Some v => py.Ok v
  | None => py.Raise py.IndexError
  end.

Fixpoint zip_with (f : R -> R -> R) (a b : list R) : list R :=
  match a, b with
  | x :: a', y :: b' => f x y :: zip_with f a' b'
  | _, _ => []
  end.

(** [t.sum(-1)]. *)
Definition sum (t : list R) : R := fold_right Rplus 0 t.

(** Number of columns of a matrix given by its rows (a matrix without
    rows is taken to be 0 x 0). *)
Definition ncols (M : list (list R)) : nat :=
  match M with
  | [] => 0%nat
  | row :: _ => length row
  end.

(** One row of [v.mm(M)]: the sum over [i] of [v_i] times row [i] of [M]. *)
Fixpoint mm_row (v : list R) (M : list (list R)) (k : nat) : list R :=
  match v, M with
  | a :: v', row :: M' => zip_with Rplus (map (Rmult a) row) (mm_row v' M' k)
  | _, _ => repeat 0 k
  end.

(** [v.mm(M)] for a one-row [v]: the inner dimensions must agree. *)
Definition mm (v : list R) (M : list (list R)) : py.result (list R) :=
  if Nat.eqb (length v) (length M)
  then py.Ok (mm_row v M (ncols M))
  else py.Raise py.RuntimeError.

(** Element-wise [a * b] with broadcasting of a singleton last dimension. *)
Definition mul (a b : list R) : py.result (list R) :=
  if Nat.eqb (length a) (length b) then py.Ok (zip_with Rmult a b)
  else match a, b with
       | [c], _ => py.Ok (map (Rmult c) b)
       | _, [c] => py.Ok (map (fun y => y * c) a)
       | _, _ => py.Raise py.RuntimeError
       end.

(** [torch.eye(n)]. *)
Definition eye_row (n i : nat) : list R :=
  map (fun j => if Nat.eqb i j then 1 else 0) (seq 0 n).
Definition eye (n : nat) : list (list R) :=
  map (eye_row n) (seq 0 n).

(** Element-wise [a + b] with broadcasting of a singleton last dimension. *)
Definition add (a b : list R) : py.result (list R) :=
  if Nat.eqb (length a) (length b) then py.Ok (zip_with Rplus a b)
  else match a, b with
       | [c], _ => py.Ok (map (Rplus c) b)
       | _, [c] => py.Ok (map (fun y => y + c) a)
       | _, _ => py.Raise py.RuntimeError
       end.

(** [dst.copy_(src)]: the new contents of [dst]; [src] must have the shape
    of [dst] or be broadcast to it. *)
Definition copy_ (dst src : list R) : py.result (list R) :=
  if Nat.eqb (length src) (length dst) then py.Ok src
  else match src with
       | [c] => py.Ok (map (fun _ => c) dst)
       | _ => py.Raise py.RuntimeError
       end.

(** [t.transpose(0, 1)] of a tensor with at least two dimensions, given by
    nested lists. *)
Fixpoint transpose01 {X : Type} (t : list (list X)) : list (list X) :=
  match t with
  | [] => []
  | [r] => map (fun x => [x]) r
  | r :: t' =>
      (fix zip (a : list X) (b : list (list X)) : list (list X) :=
         match a, b with
         | x :: a', y :: b' => (x :: y) :: zip a' b'
         | _, _ => []
         end) r (transpose01 t')
  end.

(** [t.repeat(1, 1, n)] of a three-dimensional tensor. *)
Definition repeat_last (n : nat) (t : list (list (list R)))
    : list (list (list R)) :=
  map (map (fun v => concat (repeat v n))) t.

(** [k] consecutive rows of [d] entries. *)
Fixpoint rechunk (k d : nat) (data : list R) : list (list R) :=
  match k with
  | O => []
  | S k' => firstn d data :: rechunk k' d (skipn d data)
  end.

(** [t.view(k, -1)] of a contiguous three-dimensional tensor: the entries in
    row-major order, cut into [k] rows.  The size of the free dimension
    cannot be inferred when [k] is 0, and [k] must divide the number of
    entries. *)
Definition view_rows (k : nat) (t : list (list (list R)))
    : py.result (list (list R)) :=
  let data := concat (concat t) in
  if Nat.eqb k 0 then py.Raise py.RuntimeError
  else if Nat.eqb (length data mod k) 0
       then py.Ok (rechunk k (length data / k) data)
       else py.Raise py.RuntimeError.

End torch.

(** ** utils/angles.py *)

Module angles.

(** Modelled from the spec: [angles.to_complex] lives in
    [prob_mbrl/utils/angles.py], which is not among the sources.  It
    replaces the angular dimension [d] of a state by its sine/cosine pair,
    appended after the remaining dimensions, so that a cart-pole state
    [x, dx, theta, dtheta] becomes [x, dx, dtheta, sin theta, cos theta]:
    the layout [CartpoleReward.forward] reads at indices 0, 3 and 4. *)
Definition to_complex (x : list R) (d : nat) : py.result (list R) :=
  a <- torch.index x d ;;
  py.Ok (firstn d x ++ skipn (S d) x ++ [sin a; cos a]).

End angles.

(** ** envs/cartpole/env.py *)

Module env.

Open Scope R_scope.

(** *** CartpoleReward *)

Record CartpoleReward : Type := {
  Q : list (list R);
  R_ : list (list R);
  target : list R;
  pole_length : R
}.

Definition default_target : list R := [0; 0; PI; 0].
Definition default_Q : list (list R) := [[16 * 1; 16 * 0]; [16 * 0; 16 * 1]].
Definition default_R : list (list R) := [[1e-4 * 1]].

(** [CartpoleReward.__init__]; [None] stands for an omitted argument. *)
Definition CartpoleReward_init (pole_length : option R)
    (target : option (list R)) (Q R_ : option (list (list R)))
    : CartpoleReward :=
  {| Q := match Q with Some q => q | None => default_Q end;
     R_ := match R_ with Some r => r | None => default_R end;
     target := match target with Some t => t | None => default_target end;
     pole_length := match pole_length with Some l => l | None => 0.5 end |}.

(** The two [torch.cat([...])] blocks of [forward]: the tip of the pole in
    the plane, read off an encoded state. *)
Definition tip_xy (l : R) (xa : list R) : py.result (list R) :=
  a0 <- torch.index xa 0 ;;
  a3 <- torch.index xa 3 ;;
  a4 <- torch.index xa 4 ;;
  py.Ok [a0 + l * a3; - l * a4].

(** [CartpoleReward.forward] on one state [x] and one action [u] (a
    one-dimensional [x] and [u], which the code unsqueezes to a batch of
    one row); the result is the single entry of the 1 x 1 reward. *)
Definition forward (self : CartpoleReward) (x u : list R) : py.result R :=
  targeta <- angles.to_complex (target self) 2 ;;
  target_tip_xy <- tip_xy (pole_length self) targeta ;;
  xa <- (if negb (Nat.eqb (length x) (length targeta))
         then angles.to_complex x 2
         else py.Ok x) ;;
  pole_tip_xy <- tip_xy (pole_length self) xa ;;
  let delta := torch.zip_with Rminus pole_tip_xy target_tip_xy in
  let delta := map (fun d => d / (2 * pole_length self)) delta in
  dQ <- torch.mm delta (Q self) ;;
  dQd <- torch.mul dQ delta ;;
  uR <- torch.mm u (R_ self) ;;
  uRu <- torch.mul uR u ;;
  let cost := 0.5 * (torch.sum dQd + torch.sum uRu) in
  py.Ok (exp (- cost)).

(** *** Cartpole *)

(** The dynamics model ([CartpoleModel] is imported from [.model]; of its
    attributes the environment reads the pole length [lp] and the two
    masses). *)
Record CartpoleModel : Type := {
  lp : R;
  mp : R;
  mc : R
}.

(** What a caller can pass as [reward_func]: [None], a callable, or some
    other object that is not callable. *)
Inductive reward_arg : Type :=
| RewardNone
| RewardCallable (f : list R -> list R -> py.result R)
| RewardOther (obj : nat).

(** Python's [callable(reward_func)]. *)
Definition callable (a : reward_arg) : bool :=
  match a with
  | RewardCallable _ => true
  | _ => false
  end.

(** The reward function handed to the base class: the caller's callable or
    a [CartpoleReward] module. *)
Inductive reward_fn : Type :=
| UserReward (f : list R -> list R -> py.result R)
| RewardModule (r : CartpoleReward).

Definition call_reward (rf : reward_fn) (x u : list R) : py.result R :=
  match rf with
  | UserReward f => f x u
  | RewardModule r => forward r x u
  end.

(** The attributes of the environment object that [Cartpole] reads or sets
    ([state] is [None] until the first reset). *)
Record Cartpole : Type := {
  model : CartpoleModel;
  reward_func : reward_fn;
  measurement_noise : list R;
  angle_dims : list nat;
  state : option (list R)
}.

(** [Cartpole.__init__], up to the call of the base-class constructor:
    [default_model] is the value of [CartpoleModel()]. *)
Definition Cartpole_init (default_model : CartpoleModel)
    (model : option CartpoleModel) (reward_func : reward_arg) : Cartpole :=
  let model := match model with
               | None => default_model
               | Some m => m
               end in
  let reward_func :=
    match reward_func with
    | RewardCallable f => UserReward f
    | _ => RewardModule
             (CartpoleReward_init (Some (lp model)) None None None)
    end in
  {| model := model;
     reward_func := reward_func;
     measurement_noise := repeat 0.01 4;
     angle_dims := [2%nat];
     state := None |}.

(** [a < b] on tensor entries. *)
Definition ltb (a b : R) : bool := if Rlt_dec a b then true else false.

(** [self.state[i]]. *)
Definition state_at (self : Cartpole) (i : nat) : py.result R :=
  match state self with
  | None => py.Raise py.TypeError
  | Some s => torch.index s i
  end.

(** [a < lim[0] or a > lim[1]], the second test only evaluated when the
    first is false. *)
Definition outside (a : py.result R) (lim : list R) : py.result bool :=
  v <- a ;;
  lo <- torch.index lim 0 ;;
  if ltb v lo then py.Ok true
  else (v' <- a ;; hi <- torch.index lim 1 ;; py.Ok (ltb hi v')).

Definition default_x_lim : list R := [-3.5; 3.5].
Definition default_ang_lim : list R := [-4 * PI; 4 * PI].

(** What [step] returns: [(state, reward, done, info)]. *)
Record step_result (Info : Type) : Type := {
  obs : list R;
  reward : R;
  done : bool;
  info : Info
}.
Arguments obs {Info} _.
Arguments reward {Info} _.
Arguments done {Info} _.
Arguments info {Info} _.

(** [Cartpole.step]; [base_step] is [GymEnv.step] of the base class, which
    updates [self] and returns the tuple. *)
Definition step {Info : Type}
    (base_step : Cartpole -> list R ->
                 py.result (Cartpole * step_result Info))
    (self : Cartpole) (action : list R) (x_lim ang_lim : list R)
    : py.result (Cartpole * step_result Info) :=
  r <- base_step self action ;;
  let (self, res) := r in
  out_x <- outside (state_at self 0) x_lim ;;
  let done := if out_x then true else done res in
  out_a <- outside (state_at self 2) ang_lim ;;
  let done := if out_a then true else done in
  py.Ok (self, {| obs := obs res; reward := reward res;
                  done := done; info := info res |}).

(** *** CartpoleReward2 *)

(** The classes of this file that derive from [torch.nn.Module]. *)
Inductive class : Type :=
| nn_Module
| class_CartpoleReward
| class_CartpoleReward2.

Definition class_eqb (c d : class) : bool :=
  match c, d with
  | nn_Module, nn_Module => true
  | class_CartpoleReward, class_CartpoleReward => true
  | class_CartpoleReward2, class_CartpoleReward2 => true
  | _, _ => false
  end.

(** Both reward classes are declared with the single base
    [torch.nn.Module]. *)
Definition base (c : class) : option class :=
  match c with
  | nn_Module => None
  | class_CartpoleReward => Some nn_Module
  | class_CartpoleReward2 => Some nn_Module
  end.

(** [issubclass(c, d)] in this hierarchy. *)
Definition issubclass (c d : class) : bool :=
  class_eqb c d
  || match base c with
     | Some b => class_eqb b d
     | None => false
     end.

(** [super(type_, self)] for an instance [self] of [self_class]: the object
    must be an instance of [type_]; the result stands for the class after
    [type_] in the resolution order. *)
Definition super (type_ self_class : class) : py.result (option class) :=
  if issubclass self_class type_ then py.Ok (base type_)
  else py.Raise py.TypeError.

(** [CartpoleReward2.__init__(self)]: its only statement is
    [super(CartpoleReward, self).__init__()]. *)
Definition CartpoleReward2_init : py.result unit :=
  _ <- super class_CartpoleReward class_CartpoleReward2 ;;
  py.Ok tt.

(** *** Cartpole.render *)

(** What the viewer keeps of the [N] drawn poses: the translation of every
    cart transform and the rotation of every pole transform. *)
Record Trails : Type := {
  carttrans : list (R * R);
  poletrans : list R
}.

(** [x, _, theta, _ = self.state]. *)
Definition unpack_state (s : list R) : py.result (R * R) :=
  match s with
  | [x; _; theta; _] => py.Ok (x, theta)
  | _ => py.Raise py.ValueError
  end.

(** [l[i]]. *)
Definition item {X : Type} (l : list X) (i : nat) : py.result X :=
  match nth_error l i with
  | Some v => py.Ok v
  | None => py.Raise py.IndexError
  end.

(** The list after [l[i] = v] for an index within the list. *)
Fixpoint set_item {X : Type} (l : list X) (i : nat) (v : X) : list X :=
  match l, i with
  | [], _ => []
  | _ :: l', O => v :: l'
  | a :: l', S i' => a :: set_item l' i' v
  end.

(** [l[i].set(l[i + 1].value)]: entry [i] takes the value of entry
    [i + 1]. *)
Definition copy_next {X : Type} (l : list X) (i : nat) : py.result (list X) :=
  _ <- item l i ;;
  v <- item l (i + 1) ;;
  py.Ok (set_item l i v).

(** The loop [for i in range(N - 1)] of [render], over the indices [idx];
    an [IndexError] leaves the entries already moved as they are. *)
Fixpoint shift_trails (idx : list nat) (t : Trails)
    : Trails * py.result unit :=
  match idx with
  | [] => (t, py.Ok tt)
  | i :: idx' =>
      match copy_next (carttrans t) i with
      | py.Raise e => (t, py.Raise e)
      | py.Ok c =>
          match copy_next (poletrans t) i with
          | py.Raise e =>
              ({| carttrans := c; poletrans := poletrans t |}, py.Raise e)
          | py.Ok p =>
              shift_trails idx' {| carttrans := c; poletrans := p |}
          end
      end
  end.

(** [l[-1].set(v)]. *)
Definition set_last {X : Type} (l : list X) (v : X) : py.result (list X) :=
  match l with
  | [] => py.Raise py.IndexError
  | _ => py.Ok (set_item l (length l - 1) v)
  end.

(** [Cartpole.render(mode, N)], as far as the transforms go: [viewer] is
    [None] until the first pose is drawn, the result is the new viewer and
    whether a frame was drawn ([false]: the method returned [None] because
    there is no state yet). *)
Definition render (self : Cartpole) (viewer : option Trails) (N : Z)
    : option Trails * py.result bool :=
  let N := Z.to_nat (Z.max 1 N) in
  let screen_width := 600 in
  let world_width := 2.5 in
  let scale := screen_width / world_width in
  let carty := 100 in
  match state self with
  | None => (viewer, py.Ok false)
  | Some s =>
      match unpack_state s with
      | py.Raise e => (viewer, py.Raise e)
      | py.Ok (x, theta) =>
          let cartx := x * scale + screen_width / 2.0 in
          let t := match viewer with
                   | Some t => t
                   | None => {| carttrans := repeat (cartx, carty) N;
                                poletrans := repeat (- theta - PI) N |}
                   end in
          match shift_trails (seq 0 (N - 1)) t with
          | (t, py.Raise e) => (Some t, py.Raise e)
          | (t, py.Ok _) =>
              match set_last (carttrans t) (cartx, carty) with
              | py.Raise e => (Some t, py.Raise e)
              | py.Ok c =>
                  match set_last (poletrans t) (theta + PI) with
                  | py.Raise e =>
                      (Some {| carttrans := c; poletrans := poletrans t |},
                       py.Raise e)
                  | py.Ok p =>
                      (Some {| carttrans := c; poletrans := p |},
                       py.Ok true)
                  end
              end
          end
      end
  end.

End env.

(** ** A state-and-exception monad for the effectful utilities *)

Module pyst.

Definition M (S A : Type) : Type := S -> S * py.result A.

Definition ret {S A : Type} (a : A) : M S A := fun s => (s, py.Ok a).

Definition bind {S A B : Type} (m : M S A) (k : A -> M S B) : M S B :=
  fun s =>
    match m s with
    | (s', py.Ok a) => k a s'
    | (s', py.Raise e) => (s', py.Raise e)
    end.

(** [try: body / except Exception: handler]: the handler runs in the state
    the body left behind, and only for classes derived from [Exception]. *)
Definition try_except_Exception {S : Type} (body handler : M S unit)
    : M S unit :=
  fun s =>
    match body s with
    | (s', py.Ok tt) => (s', py.Ok tt)
    | (s', py.Raise e) =>
        if py.is_Exception e then handler s' else (s', py.Raise e)
    end.

(** [try: body / finally: cleanup], with a cleanup that does not raise. *)
Definition try_finally {S A : Type} (body : M S A) (cleanup : S -> S)
    : M S A :=
  fun s => let (s', r) := body s in (cleanup s', r).

End pyst.

Notation "x <~ m ;; k" := (pyst.bind m (fun x => k))
  (at level 61, m at next level, right associativity).
Notation "m ;;; k" := (pyst.bind m (fun _ => k))
  (at level 61, right associativity).

(** ** utils/core.py *)

Module core.

Open Scope R_scope.

(** *** batch_jacobian *)

Section BatchJacobian.

(** [f] on one row (a batched [f] maps every row of its input by [f_row]),
    and the Jacobian of [f_row] that autograd differentiates through:
    [jac x] has one row per output and one column per input. *)
Variable f_row : list R -> list R.
Variable jac : list R -> list (list R).

Definition f (X : list (list R)) : list (list R) := map f_row X.

Fixpoint same_shape (A B : list (list R)) : bool :=
  match A, B with
  | [], [] => true
  | a :: A', b :: B' => Nat.eqb (length a) (length b) && same_shape A' B'
  | _, _ => false
  end.

(** Row [r] of the vector-Jacobian product: the sum over [j] of
    [g_j * d y_rep[r, j] / d x_rep[r, :]]. *)
Fixpoint vjp_rows (X G : list (list R)) : list (list R) :=
  match X, G with
  | x :: X', g :: G' => torch.mm_row g (jac x) (length x) :: vjp_rows X' G'
  | _, _ => []
  end.

(** [torch.autograd.grad(y_rep, x_rep, grad_outputs)] for [y_rep = f(x_rep)]:
    the gradient seed must have the shape of the output. *)
Definition autograd_grad (y_rep x_rep grad_outputs : list (list R))
    : py.result (list (list R)) :=
  if same_shape grad_outputs y_rep
  then py.Ok (vjp_rows x_rep grad_outputs)
  else py.Raise py.RuntimeError.

(** [batch_jacobian(f, x, out_dims)] for a one-dimensional [x]; the result is
    the single entry of the tuple that [grad] returns. *)
Definition batch_jacobian (x : list R) (out_dims : option nat)
    : py.result (list (list R)) :=
  let out_dims := match out_dims with
                  | None => length (f_row x)
                  | Some d => d
                  end in
  let x_rep := repeat x out_dims in
  let y_rep := f x_rep in
  autograd_grad y_rep x_rep (torch.eye (length x)).

End BatchJacobian.

(** *** load_checkpoint *)

(** What a caller can pass as [path]. *)
Inductive path_arg : Type :=
| PathStr (s : string)
| PathBytes (s : string)
| PathNone.

(** The calls [load_checkpoint] makes, in order. *)
Inductive call : Type :=
| CallJoin (name : string)
| CallTorchLoad (file : string)
| CallDynLoad
| CallPolLoad
| CallValLoad
| CallExpLoad (file : string)
| CallWarn (message : string).

Definition ends_with_slash (s : string) : bool :=
  match List.rev (list_ascii_of_string s) with
  | c :: _ => Ascii.eqb c "/"%char
  | [] => false
  end.

(** [os.path.join(path, name)] for a relative [name] given as [str]: a
    [str] path is joined with a separator, anything else is a [TypeError]
    ([bytes] cannot be mixed with [str]). *)
Definition os_path_join (path : path_arg) (name : string) : py.result string :=
  match path with
  | PathStr s =>
      if (String.eqb s "" || ends_with_slash s)%bool
      then py.Ok (s ++ name)%string
      else py.Ok (s ++ "/" ++ name)%string
  | _ => py.Raise py.TypeError
  end.

(** [str(path)], as [format] renders it. *)
Definition str (path : path_arg) : string :=
  match path with
  | PathStr s => s
  | PathBytes s => ("b'" ++ s ++ "'")%string
  | PathNone => "None"%string
  end.

Section LoadCheckpoint.

(** The parameter dictionaries and whatever the loads read and change
    (files, the objects being loaded into). *)
Variables (Params World : Type).

Record ck_state : Type := {
  world : World;
  val_path : option string;
  exp_path : option string;
  calls : list call
}.

Definition ckM (A : Type) : Type := pyst.M ck_state A.

Definition log (c : call) : ckM unit :=
  fun s => ({| world := world s; val_path := val_path s;
               exp_path := exp_path s; calls := calls s ++ [c] |}, py.Ok tt).

Definition set_val_path (p : string) : ckM unit :=
  fun s => ({| world := world s; val_path := Some p;
               exp_path := exp_path s; calls := calls s |}, py.Ok tt).

Definition set_exp_path (p : string) : ckM unit :=
  fun s => ({| world := world s; val_path := val_path s;
               exp_path := Some p; calls := calls s |}, py.Ok tt).

Definition get_val_path : ckM string :=
  fun s => (s, py.read_local (val_path s)).

Definition get_exp_path : ckM string :=
  fun s => (s, py.read_local (exp_path s)).

(** An external call: it may change the world and may raise. *)
Definition extern {A : Type} (c : call) (op : World -> World * py.result A)
    : ckM A :=
  log c ;;;
  (fun s => let (w, r) := op (world s) in
            ({| world := w; val_path := val_path s;
                exp_path := exp_path s; calls := calls s |}, r)).

Definition join (path : path_arg) (name : string) : ckM string :=
  log (CallJoin name) ;;; (fun s => (s, os_path_join path name)).

(** [warnings.warn(message)] under the default filters: it reports and
    returns. *)
Definition warn (message : string) : ckM unit := log (CallWarn message).

Definition msg : string := "Unable to load dynamics model parameters at ".

(** [msg.format(...)]: the single placeholder takes the first argument. *)
Definition format (first : string) : string := (msg ++ first)%string.

Variable torch_load : string -> World -> World * py.result Params.

(** The [load] methods of [dyn], [pol] and [val], and [exp.load]. *)
Definition loader : Type := Params -> World -> World * py.result unit.
Definition exp_loader : Type := string -> World -> World * py.result unit.

Definition load_checkpoint (path : path_arg) (dyn pol : loader)
    (exp : exp_loader) (val : option loader) : ckM unit :=
  pyst.try_except_Exception
    (file <~ join path "latest_dynamics.pth.tar" ;;
     dyn_params <~ extern (CallTorchLoad file) (torch_load file) ;;
     extern CallDynLoad (dyn dyn_params))
    (warn (format (str path))) ;;;
  pyst.try_except_Exception
    (file <~ join path "latest_policy.pth.tar" ;;
     pol_params <~ extern (CallTorchLoad file) (torch_load file) ;;
     extern CallPolLoad (pol pol_params))
    (warn (format (str path))) ;;;
  match val with
  | None => pyst.ret tt
  | Some val =>
      pyst.try_except_Exception
        (file <~ join path "latest_critic.pth.tar" ;;
         set_val_path file ;;;
         file <~ get_val_path ;;
         val_params <~ extern (CallTorchLoad file) (torch_load file) ;;
         extern CallValLoad (val val_params))
        (file <~ get_val_path ;; warn (format file))
  end ;;;
  pyst.try_except_Exception
    (file <~ join path "experience.pth.tar" ;;
     set_exp_path file ;;;
     file <~ get_exp_path ;;
     extern (CallExpLoad file) (exp file))
    (file <~ get_exp_path ;; warn (format file)).

(** The state in which a call of [load_checkpoint] starts: no local
    variable is bound yet. *)
Definition ck_init (w : World) : ck_state :=
  {| world := w; val_path := None; exp_path := None; calls := [] |}.

End LoadCheckpoint.

(** *** train_model *)

Section TrainModel.

(** A row of the dataset (an input with its target), the model's state and
    the optimizer's state. *)
Variables (Sample Model Opt : Type).

(** The sampler of a shuffling dataloader: [shuffle k data] is the order
    drawn for the [k]-th iterator made in this run. *)
Variable shuffle : nat -> list Sample -> list Sample.

(** [model(x, resample=resample)[0].log_prob(y).mean()] as a function of the
    model's state, for the mini-batch [(x, y)]. *)
Variable log_prob_mean : bool -> Model -> list Sample -> R.

(** [model.regularization_loss()]. *)
Variable regularization_loss : Model -> R.

(** [loss.backward(); opt.step()] after [opt.zero_grad()]: one step on the
    gradient of [loss] at the current state of the model. *)
Variable opt_step : Opt -> (Model -> R) -> Model -> Opt * Model.

(** [torch.optim.Adam(model.parameters(), lr=1e-3)]. *)
Variable Adam : Model -> Opt.

Record DataLoader : Type := {
  dataset : list Sample;
  batch_size : nat
}.

(** [torch.utils.data.DataLoader(..., batch_size, shuffle=True)]: a batch
    size that is not positive is refused. *)
Definition make_DataLoader (data : list Sample) (batch_size : nat)
    : py.result DataLoader :=
  if Nat.eqb batch_size 0 then py.Raise py.ValueError
  else py.Ok {| dataset := data; batch_size := batch_size |}.

(** Consecutive chunks of [size] rows, the last one possibly shorter. *)
Fixpoint chunks (fuel size : nat) (l : list Sample) : list (list Sample) :=
  match fuel, l with
  | S fuel', _ :: _ => firstn size l :: chunks fuel' size (skipn size l)
  | _, _ => []
  end.

(** An iterator over the dataloader: the mini-batches it has yet to yield. *)
Definition iterator : Type := list (list Sample).

(** [iter(dataloader)], for the [k]-th iterator of the run. *)
Definition iter (dl : DataLoader) (k : nat) : iterator :=
  let order := shuffle k (dataset dl) in
  chunks (length order) (batch_size dl) order.

(** [next(it)]. *)
Definition next (it : iterator) : py.result (list Sample * iterator) :=
  match it with
  | [] => py.Raise py.StopIteration
  | b :: it' => py.Ok (b, it')
  end.

(** One optimizer iteration, as recorded when [opt.step()] runs. *)
Record step_record : Type := {
  step_model : Model;
  step_opt : Opt;
  step_batch : list Sample;
  step_loss : Model -> R;
  step_new : Opt * Model
}.

Record train_state : Type := {
  model : Model;
  training : bool;
  opt : Opt;
  iters_made : nat;
  data_iter : iterator;
  steps : list step_record
}.

(** The body of [next_batch], for a given binding of the name [data_iter]
    ([None]: unbound) and [k] iterators made so far; it returns the batch,
    the new binding and the new count.  [except BaseException] catches every
    exception of the [try]. *)
Definition next_batch_body (dl : DataLoader) (var : option iterator) (k : nat)
    : py.result (list Sample * option iterator * nat) :=
  match (it <- py.read_local var ;; next it) with
  | py.Ok (b, it') => py.Ok (b, Some it', k)
  | py.Raise _ =>
      let it := iter dl k in
      r <- next it ;;
      py.Ok (fst r, Some (snd r), S k)
  end.

(** [next_batch()] as Python runs it.  The body assigns [data_iter] and
    declares it neither [nonlocal] nor [global], so the name is local to
    [next_batch]: unbound when a call starts, gone when it returns, and the
    [data_iter] of [train_model] is never read or advanced. *)
Definition next_batch (dl : DataLoader) (st : train_state)
    : py.result (list Sample * train_state) :=
  r <- next_batch_body dl None (iters_made st) ;;
  let '(b, _, k) := r in
  py.Ok (b, {| model := model st; training := training st; opt := opt st;
               iters_made := k; data_iter := data_iter st;
               steps := steps st |}).

(** The same body with [data_iter] resolved to the variable of
    [train_model]: the iterator is advanced in place and replaced only when
    it is exhausted. *)
Definition next_batch_enclosing (dl : DataLoader) (st : train_state)
    : py.result (list Sample * train_state) :=
  r <- next_batch_body dl (Some (data_iter st)) (iters_made st) ;;
  let '(b, var, k) := r in
  py.Ok (b, {| model := model st; training := training st; opt := opt st;
               iters_made := k;
               data_iter := match var with
                            | Some it => it
                            | None => data_iter st
                            end;
               steps := steps st |}).

(** The loss of one iteration, as a function of the model's state. *)
Definition loss_fn (resample : bool) (n_samples : nat) (b : list Sample)
    : Model -> R :=
  fun m => - log_prob_mean resample m b
           + regularization_loss m / INR n_samples.

(** One pass through the body of the training loop, for a given way of
    drawing the batch. *)
Definition train_iteration
    (draw : DataLoader -> train_state -> py.result (list Sample * train_state))
    (dl : DataLoader) (resample : bool) (st : train_state)
    : py.result train_state :=
  r <- draw dl st ;;
  let (b, st) := r in
  let loss := loss_fn resample (length (dataset dl)) b in
  let new := opt_step (opt st) loss (model st) in
  py.Ok {| model := snd new; training := training st; opt := fst new;
           iters_made := iters_made st; data_iter := data_iter st;
           steps := steps st ++
                    [{| step_model := model st; step_opt := opt st;
                        step_batch := b; step_loss := loss;
                        step_new := new |}] |}.

(** [for i in range(n_iters): ...]. *)
Fixpoint train_loop
    (draw : DataLoader -> train_state -> py.result (list Sample * train_state))
    (dl : DataLoader) (resample : bool) (n_iters : nat) (st : train_state)
    : py.result train_state :=
  match n_iters with
  | O => py.Ok st
  | S n => st' <- train_iteration draw dl resample st ;;
           train_loop draw dl resample n st'
  end.

Definition train_model_with
    (draw : DataLoader -> train_state -> py.result (list Sample * train_state))
    (m : Model) (data : list Sample) (n_iters : nat) (opt_arg : option Opt)
    (resample : bool) (batch_size : nat) : py.result train_state :=
  (* model.train() *)
  let optimizer := match opt_arg with
                   | None => Adam m
                   | Some o => o
                   end in
  dl <- make_DataLoader data batch_size ;;
  let st := {| model := m; training := true; opt := optimizer;
               iters_made := 1; data_iter := iter dl 0; steps := [] |} in
  st <- train_loop draw dl resample n_iters st ;;
  (* model.eval() *)
  py.Ok {| model := model st; training := false; opt := opt st;
           iters_made := iters_made st; data_iter := data_iter st;
           steps := steps st |}.

(** [train_model(model, X, Y, n_iters, opt, resample, loss, batch_size)];
    the rows of [X] and [Y] are paired in [data]. *)
Definition train_model := train_model_with next_batch.

(** The training loop with the batches drawn as the comment of
    [next_batch] intends: successive batches of the current iterator. *)
Definition train_model_enclosing := train_model_with next_batch_enclosing.

(** The mini-batches of the optimizer iterations, in order. *)
Definition batches_drawn (st : train_state) : list (list Sample) :=
  map step_batch (steps st).

(** An optimizer iteration recorded for a run on [data]: the loss is that of
    its own mini-batch, the step is taken on that loss, and the mini-batch
    is a non-empty part of the data. *)
Definition recorded_step (resample : bool) (data : list Sample)
    (s : step_record) : Prop :=
  (forall m, step_loss s m
             = - log_prob_mean resample m (step_batch s)
               + regularization_loss m / INR (length data))
  /\ step_new s = opt_step (step_opt s) (step_loss s) (step_model s)
  /\ step_batch s <> []
  /\ incl (step_batch s) data.

(** Successive gradient steps, one per mini-batch of [bs], each on the loss
    of its own batch. *)
Definition gradient_steps (resample : bool) (n_samples : nat)
    (bs : list (list Sample)) (start : Opt * Model) : Opt * Model :=
  fold_left
    (fun om b => opt_step (fst om) (loss_fn resample n_samples b) (snd om))
    bs start.

End TrainModel.

(** *** tqdm_joblib *)

(** A callback class: one already installed in [joblib.parallel], or the
    subclass [TqdmBatchCompletionCallback] made by a [tqdm_joblib] call for
    the progress bar [bar], deriving from [super]. *)
Inductive callback_class : Type :=
| InstalledClass (id : nat)
| TqdmBatchCompletionCallback (bar : nat) (super : callback_class).

Record tqdm : Type := {
  n : nat;
  closed : bool
}.

Section TqdmJoblib.

(** Everything else a body can touch. *)
Variable Rest : Type.

Record process : Type := {
  BatchCompletionCallBack : callback_class;
  bars : nat -> tqdm;
  rest : Rest
}.

(** [__call__] of a class that was already installed. *)
Variable installed_call : nat -> nat -> process -> process.

Definition set_callback (c : callback_class) (p : process) : process :=
  {| BatchCompletionCallBack := c; bars := bars p; rest := rest p |}.

Definition set_bar (bar : nat) (t : tqdm) (p : process) : process :=
  {| BatchCompletionCallBack := BatchCompletionCallBack p;
     bars := fun b => if Nat.eqb b bar then t else bars p b;
     rest := rest p |}.

(** [tqdm_object.update(n=k)]. *)
Definition tqdm_update (bar k : nat) (p : process) : process :=
  set_bar bar {| n := n (bars p bar) + k; closed := closed (bars p bar) |} p.

(** [tqdm_object.close()]. *)
Definition tqdm_close (bar : nat) (p : process) : process :=
  set_bar bar {| n := n (bars p bar); closed := true |} p.

(** Calling an instance of class [c] whose [batch_size] is [k], when a batch
    completes. *)
Fixpoint call_callback (c : callback_class) (k : nat) (p : process)
    : process :=
  match c with
  | InstalledClass id => installed_call id k p
  | TqdmBatchCompletionCallback bar super =>
      call_callback super k (tqdm_update bar k p)
  end.

(** [with tqdm_joblib(tqdm_object) as t: body(t)]: the generator runs up to
    its [yield], the body runs, and the [finally] block runs whether the body
    returned or raised; an exception of the body then goes on. *)
Definition tqdm_joblib {A : Type} (tqdm_object : nat)
    (body : nat -> pyst.M process A) : pyst.M process A :=
  fun p =>
    let old_batch_callback := BatchCompletionCallBack p in
    let p := set_callback
               (TqdmBatchCompletionCallback tqdm_object old_batch_callback)
               p in
    pyst.try_finally (body tqdm_object)
      (fun p => tqdm_close tqdm_object (set_callback old_batch_callback p))
      p.

End TqdmJoblib.

(** *** polyak_averaging *)

(** [polyak_averaging(current, target, tau)] on the parameter lists of the
    two modules, each parameter a one-dimensional tensor: the parameters of
    [target] after the call, and whether the call returned.  [zip] stops at
    the shorter list, and an exception leaves the parameters already copied
    as they are. *)
Fixpoint polyak_averaging (current target : list (list R)) (tau : R)
    : list (list R) * py.result unit :=
  match current, target with
  | param :: current', target_param :: target' =>
      match (v <- torch.add (map (Rmult tau) param)
                    (map (Rmult (1 - tau)) target_param) ;;
             torch.copy_ target_param v) with
      | py.Ok new =>
          let (rest, r) := polyak_averaging current' target' tau in
          (new :: rest, r)
      | py.Raise e => (target_param :: target', py.Raise e)
      end
  | _, _ => (target, py.Ok tt)
  end.

(** *** threshold_linear *)

(** Conversion of a floating-point value to an integer type: the fractional
    part is dropped. *)
Definition trunc (r : R) : Z :=
  if Rle_dec 0 r then Int_part r else (- Int_part (- r))%Z.

(** [.astype(np.int32)]; the conversion of a value outside the range of
    [int32] is not defined ([None]). *)
Definition astype_int32 (r : R) : option Z :=
  let z := trunc r in
  if ((- 2 ^ 31 <=? z) && (z <? 2 ^ 31))%Z then Some z else None.

(** [threshold_linear(x, y0, yend, x0, xend)] on a scalar [x].  For
    [xend = x0] the quotient is infinite or not a number, which is outside
    the real-number model ([None]). *)
Definition threshold_linear (x y0 yend x0 xend : R) : option Z :=
  if Req_dec_T (xend - x0) 0 then None
  else
    let y := (x - x0) * (yend - y0) / (xend - x0) + y0 in
    astype_int32 (Rmax y0 (Rmin yend y)).

(** *** sin_squashing_fn *)

(** [sin_squashing_fn(x)] on a one-dimensional [x]: the stacked sines of [x]
    and [3 x] are weighted by 9 and 1 and summed. *)
Definition sin_squashing_fn (x : list R) : list R :=
  map (fun xi => 0.125 * (sin xi * 9 + (sin (3 * xi) * 1 + 0))) x.

(** *** tile *)

(** [tile(tensor, n)] on a two-dimensional tensor given by its rows. *)
Definition tile (tensor : list (list R)) (n : nat)
    : py.result (list (list R)) :=
  let t := [tensor] in                      (* unsqueeze(0) *)
  let t := torch.transpose01 t in           (* transpose(0, 1) *)
  let t := torch.repeat_last n t in         (* repeat(1, 1, n) *)
  torch.view_rows (n * length tensor) t.    (* view(n * shape[0], -1) *)

(** *** load_csv *)

(** [s.split(sep)] for a one-character separator. *)
Fixpoint split (sep : ascii) (s : string) : list string :=
  match s with
  | EmptyString => [EmptyString]
  | String c s' =>
      if Ascii.eqb c sep then EmptyString :: split sep s'
      else match split sep s' with
           | field :: fields => String c field :: fields
           | [] => [String c EmptyString]
           end
  end.

(** The list comprehension [[int(d) for d in fields]]: it stops at the first
    conversion that raises. *)
Fixpoint int_all (int : string -> py.result Z) (fields : list string)
    : py.result (list Z) :=
  match fields with
  | [] => py.Ok []
  | d :: fields' =>
      z <- int d ;;
      zs <- int_all int fields' ;;
      py.Ok (z :: zs)
  end.

(** [load_csv(s)] for a [str] argument; [int] is Python's conversion of a
    string to an integer.  [except Exception] turns a failure into [None]. *)
Definition load_csv (int : string -> py.result Z) (s : string)
    : py.result (option (list Z)) :=
  match int_all int (split "," s) with
  | py.Ok l => py.Ok (Some l)
  | py.Raise e => if py.is_Exception e then py.Ok None else py.Raise e
  end.

(** [",".join(fields)]. *)
Fixpoint join_comma (fields : list string) : string :=
  match fields with
  | [] => EmptyString
  | [d] => d
  | d :: fields' => (d ++ "," ++ join_comma fields')%string
  end.

(** Whether a string contains the character [c]. *)
Fixpoint contains (c : ascii) (s : string) : bool :=
  match s with
  | EmptyString => false
  | String c' s' => Ascii.eqb c' c || contains c s'
  end.

(** *** perturb_initial_action *)

(** Column [j] of a tensor given by its rows. *)
Definition column (j : nat) (A : list (list R)) : list R :=
  map (fun row => nth j row 0) A.

(** [t.std()] of a one-dimensional tensor, with Bessel's correction; with
    fewer than two entries the result is not a number ([None]). *)
Definition std (l : list R) : option R :=
  if Nat.leb (length l) 1 then None
  else
    let mean := torch.sum l / INR (length l) in
    Some (sqrt (torch.sum (map (fun a => (a - mean) * (a - mean)) l)
                / INR (length l - 1))).

(** [actions.std(0)]: one deviation per column. *)
Fixpoint std0 (cols : list nat) (A : list (list R)) : option (list R) :=
  match cols with
  | [] => Some []
  | j :: cols' =>
      match std (column j A), std0 cols' A with
      | Some s, Some ss => Some (s :: ss)
      | _, _ => None
      end
  end.

(** One row of [actions + 1e-1 * (randint * actions.std(0))], for the row
    [bits] of the random 0/1 tensor. *)
Fixpoint perturb_row (bits : list bool) (sd row : list R) : list R :=
  match bits, sd, row with
  | b :: bits', s :: sd', a :: row' =>
      (a + 1e-1 * ((if b then 1 else 0) * s)) :: perturb_row bits' sd' row'
  | _, _, _ => []
  end.

Fixpoint perturb_rows (randint : nat -> nat -> bool) (r : nat)
    (sd : list R) (A : list (list R)) : list (list R) :=
  match A with
  | [] => []
  | row :: A' =>
      perturb_row (map (randint r) (seq 0 (length row))) sd row
      :: perturb_rows randint (S r) sd A'
  end.

(** [perturb_initial_action(i, states, actions)] for a two-dimensional
    [actions]; [randint r c] is the entry of [torch.randint(0, 2, ...)] at
    row [r] and column [c].  The result is [None] when the deviation is not
    a number (fewer than two rows). *)
Definition perturb_initial_action {S : Type} (randint : nat -> nat -> bool)
    (i : Z) (states : S) (actions : list (list R))
    : option (S * list (list R)) :=
  if Z.eqb i 0 then
    match std0 (seq 0 (torch.ncols actions)) actions with
    | Some sd => Some (states, perturb_rows randint 0 sd actions)
    | None => None
    end
  else Some (states, actions).

End core.

(** ** The quantities the specification names *)

Module reference.

Open Scope R_scope.

Definition dot (a b : list R) : R := torch.sum (torch.zip_with Rmult a b).

(** [v^T M v]: the sum over [i] of [v_i] times the [i]-th entry of [M v]. *)
Definition quadratic_form (v : list R) (M : list (list R)) : R :=
  dot v (map (fun row => dot row v) M).

(** An [r] x [c] matrix given by its rows. *)
Definition matrix (r c : nat) (M : list (list R)) : Prop :=
  length M = r /\ Forall (fun row => length row = c) M.

(** The tip of a pole of length [l] on a cart at [x], at angle [theta]. *)
Definition pole_tip (l x theta : R) : R * R :=
  (x + l * sin theta, - l * cos theta).

(** The displacement between two points of the plane, divided by [2 l]. *)
Definition normalized_displacement (l : R) (p q : R * R) : list R :=
  [(fst p - fst q) / (2 * l); (snd p - snd q) / (2 * l)].

(** [0.5 * (delta^T Q delta + u^T R u)]. *)
Definition quadratic_cost (Q R_ : list (list R)) (delta u : list R) : R :=
  0.5 * (quadratic_form delta Q + quadratic_form u R_).

(** Two lists of tensors with the same number of tensors and, one by one,
    the same number of entries. *)
Definition same_shapes (A B : list (list R)) : Prop :=
  Forall2 (fun a b => length a = length b) A B.

(** Entry by entry, the point at fraction [w] of the way from [p] to [t]. *)
Definition toward (w : R) (p t : list (list R)) : list (list R) :=
  map (fun pt => torch.zip_with (fun a b => a + w * (b - a)) (fst pt) (snd pt))
      (combine p t).

(** The number of commas of a string. *)
Definition commas (s : string) : nat :=
  count_occ ascii_dec (list_ascii_of_string s) ","%char.

End reference.

(** ** Concrete inputs *)

Module inputs.

Open Scope R_scope.

(** A map from two inputs to three outputs, [(a, b) |-> (a, b, a + b)], and
    its Jacobian. *)
Definition f3 (x : list R) : list R :=
  match x with
  | [a; b] => [a; b; a + b]
  | _ => []
  end.
Definition jac3 (x : list R) : list (list R) := [[1; 0]; [0; 1]; [1; 1]].

(** A sampler that always draws the dataset's own order: one of the orders
    a shuffling sampler can draw. *)
Definition same_order (k : nat) (data : list nat) : list nat := data.

(** A model without parameters, for runs where only the batches matter. *)
Definition no_log_prob (resample : bool) (m : unit) (b : list nat) : R := 0.
Definition no_reg (m : unit) : R := 0.
Definition no_step (o : unit) (loss : unit -> R) (m : unit) : unit * unit :=
  (tt, tt).
Definition no_Adam (m : unit) : unit := tt.

(** A base-class step that leaves the cart at position 4 and reports
    [done = False]. *)
Definition base_step_far (self : env.Cartpole) (action : list R)
    : py.result (env.Cartpole * env.step_result unit) :=
  py.Ok ({| env.model := env.model self;
            env.reward_func := env.reward_func self;
            env.measurement_noise := env.measurement_noise self;
            env.angle_dims := env.angle_dims self;
            env.state := Some [4; 0; 0; 0] |},
         {| env.obs := [4; 0; 0; 0]; env.reward := 0;
            env.done := false; env.info := tt |}).

Definition some_model : env.CartpoleModel :=
  {| env.lp := 0.5; env.mp := 0.5; env.mc := 0.5 |}.

(** A stand-in for Python's [int] that knows the one-digit strings ["0"] to
    ["3"] and refuses every other string, and [str] on the same digits. *)
Definition int_digit (s : string) : py.result Z :=
  if String.eqb s "0" then py.Ok 0%Z
  else if String.eqb s "1" then py.Ok 1%Z
  else if String.eqb s "2" then py.Ok 2%Z
  else if String.eqb s "3" then py.Ok 3%Z
  else py.Raise py.ValueError.
Definition str_digit (z : Z) : string :=
  match z with
  | 1%Z => "1"
  | 2%Z => "2"
  | 3%Z => "3"
  | _ => "0"
  end.

(** A directory without checkpoint files: [torch.load] and [exp.load] raise
    [OSError]; loaders that accept whatever they are given. *)
Definition load_missing (file : string) (w : unit)
    : unit * py.result unit := (w, py.Raise py.OSError).
Definition load_accepts (ps : unit) (w : unit)
    : unit * py.result unit := (w, py.Ok tt).
(** A [torch.load] interrupted from the keyboard. *)
Definition load_interrupted (file : string) (w : unit)
    : unit * py.result unit := (w, py.Raise py.KeyboardInterrupt).

(** The identity on two inputs and its Jacobian. *)
Definition f2 (x : list R) : list R := x.
Definition jac2 (x : list R) : list (list R) := [[1; 0]; [0; 1]].

(** A body of a [with] block that raises after one batch of 5 completes. *)
Definition body_raises (bar : nat) (p : core.process unit)
    : core.process unit * py.result unit :=
  (core.call_callback unit (fun _ _ q => q)
     (core.BatchCompletionCallBack unit p) 5 p,
   py.Raise py.ValueError).

(** An environment whose cart is at 1 with the pole at angle 2. *)
Definition env_at_1 : env.Cartpole :=
  {| env.model := some_model;
     env.reward_func :=
       env.RewardModule (env.CartpoleReward_init (Some 0.5) None None None);
     env.measurement_noise := repeat 0.01 4;
     env.angle_dims := [2%nat];
     env.state := Some [1; 0; 2; 0] |}.

(** Two poses kept by a viewer made for two. *)
Definition two_poses : env.Trails :=
  {| env.carttrans := [(300, 100); (420, 100)]; env.poletrans := [0; 1] |}.

(** A draw of [randint(0, 2, ...)]: a checkerboard of ones and zeros. *)
Definition checkerboard (r c : nat) : bool := Nat.even (r + c).

End inputs.

(* ===================================================================== *)
(** * Theorems                                                            *)
(* ===================================================================== *)

(** ** Tensor algebra *)

Section TensorLemmas.

Open Scope R_scope.

Lemma zip_with_length (g : R -> R -> R) (a b : list R) :
  length (torch.zip_with g a b) = Nat.min (length a) (length b).
Proof.
  revert b; induction a as [|x a IH]; intros [|y b]; simpl; auto.
Qed.

Lemma dot_repeat_0 (k : nat) (w : list R) : reference.dot (repeat 0 k) w = 0.
Proof.
  revert w; induction k as [|k IH]; intros [|y w]; simpl; try reflexivity.
  unfold reference.dot in *; simpl. rewrite IH. ring.
Qed.

Lemma dot_scale (c : R) (a w : list R) :
  reference.dot (map (Rmult c) a) w = c * reference.dot a w.
Proof.
  revert w; induction a as [|x a IH]; intros [|y w]; unfold reference.dot in *;
    simpl; try ring.
  rewrite IH. ring.
Qed.

Lemma dot_plus (a b w : list R) :
  length a = length b ->
  reference.dot (torch.zip_with Rplus a b) w
  = reference.dot a w + reference.dot b w.
Proof.
  revert b w; induction a as [|x a IH]; intros [|y b] [|z w] H;
    unfold reference.dot in *; simpl in *; try discriminate; try ring.
  rewrite IH by congruence. ring.
Qed.

Lemma mm_row_length (v : list R) (M : list (list R)) (k : nat) :
  length v = length M ->
  Forall (fun row => length row = k) M ->
  length (torch.mm_row v M k) = k.
Proof.
  revert M; induction v as [|a v IH]; intros [|row M] Hl HM; simpl in *;
    try discriminate.
  - apply repeat_length.
  - inversion HM; subst.
    rewrite zip_with_length, length_map, IH by (auto; congruence).
    apply Nat.min_id.
Qed.

(** [(v.mm(M) * w).sum(-1)] is the bilinear form [v^T M w]. *)
Lemma mm_row_dot (v : list R) (M : list (list R)) (w : list R) :
  length v = length M ->
  Forall (fun row => length row = length w) M ->
  reference.dot (torch.mm_row v M (length w)) w
  = reference.dot v (map (fun row => reference.dot row w) M).
Proof.
  revert M; induction v as [|a v IH]; intros [|row M] Hl HM; simpl in *;
    try discriminate.
  - apply dot_repeat_0.
  - inversion HM; subst.
    rewrite dot_plus, dot_scale, IH by
      (auto; try congruence;
       rewrite length_map, mm_row_length; auto; congruence).
    unfold reference.dot; simpl. reflexivity.
Qed.

(** The quadratic term of the cost, as the code computes it. *)
Lemma quadratic_term (v : list R) (M : list (list R)) :
  reference.matrix (length v) (length v) M ->
  (vM <- torch.mm v M ;; vMv <- torch.mul vM v ;; py.Ok (torch.sum vMv))
  = py.Ok (reference.quadratic_form v M).
Proof.
  intros [Hl HM]. unfold torch.mm. rewrite <- Hl, Nat.eqb_refl. simpl.
  assert (Hk : torch.ncols M = length v \/ v = []).
  { destruct M as [|row M]; simpl.
    - right. destruct v; [reflexivity | discriminate].
    - left. inversion HM; assumption. }
  assert (Hmm : torch.mm_row v M (torch.ncols M)
                = torch.mm_row v M (length v)).
  { destruct Hk as [-> | ->]; [reflexivity |].
    destruct M; [reflexivity | discriminate]. }
  rewrite Hmm. unfold torch.mul.
  rewrite mm_row_length, Nat.eqb_refl by auto. simpl.
  f_equal. apply (mm_row_dot v M v); auto.
Qed.

End TensorLemmas.

(** ** CartpoleReward.forward *)

Section Reward.

Open Scope R_scope.

Lemma to_complex_state (a b th d : R) :
  angles.to_complex [a; b; th; d] 2 = py.Ok [a; b; d; sin th; cos th].
Proof. reflexivity. Qed.

(** The value of [forward] on a four-dimensional state, for a
    four-dimensional target and weight matrices of the right shapes. *)
Lemma forward_value (r : env.CartpoleReward) (u : list R)
    (x0 x1 th x3 t0 t1 tth t3 : R) :
  env.target r = [t0; t1; tth; t3] ->
  reference.matrix 2 2 (env.Q r) ->
  reference.matrix (length u) (length u) (env.R_ r) ->
  env.forward r [x0; x1; th; x3] u
  = py.Ok (exp (- reference.quadratic_cost (env.Q r) (env.R_ r)
                    (reference.normalized_displacement (env.pole_length r)
                       (reference.pole_tip (env.pole_length r) x0 th)
                       (reference.pole_tip (env.pole_length r) t0 tth))
                    u)).
Proof.
  intros Ht HQ HR. unfold env.forward. rewrite Ht. simpl py.bind.
  set (delta := reference.normalized_displacement (env.pole_length r)
                  (reference.pole_tip (env.pole_length r) x0 th)
                  (reference.pole_tip (env.pole_length r) t0 tth)).
  match goal with
  | |- context [torch.mm ?d (env.Q r)] => change d with delta
  end.
  pose proof (quadratic_term delta (env.Q r)) as HqQ.
  pose proof (quadratic_term u (env.R_ r) HR) as HqR.
  specialize (HqQ HQ).
  destruct (torch.mm delta (env.Q r)) as [dQ|e]; simpl in HqQ;
    [|discriminate].
  simpl py.bind.
  destruct (torch.mul dQ delta) as [dQd|e]; simpl in HqQ; [|discriminate].
  simpl py.bind.
  destruct (torch.mm u (env.R_ r)) as [uR|e]; simpl in HqR; [|discriminate].
  simpl py.bind.
  destruct (torch.mul uR u) as [uRu|e]; simpl in HqR; [|discriminate].
  simpl py.bind.
  injection HqQ as ->. injection HqR as ->.
  reflexivity.
Qed.

(** X18. A state that is already encoded,
    [x, dx, dtheta, sin theta, cos theta], is used as it is: the same reward
    as for the state it encodes. *)
Lemma forward_encoded_state (r : env.CartpoleReward) (u : list R)
    (x0 x1 th x3 t0 t1 tth t3 : R) :
  env.target r = [t0; t1; tth; t3] ->
  env.forward r [x0; x1; x3; sin th; cos th] u
  = env.forward r [x0; x1; th; x3] u.
Proof.
  intros Ht. unfold env.forward. rewrite Ht. reflexivity.
Qed.

(** C1. On every state [x, dx, theta, dtheta] and action [u],
    [CartpoleReward.forward] returns [exp(-cost)] with
    [cost = 0.5 * (delta^T Q delta + u^T R u)], where [delta] is the
    displacement between the pole tip
    [(x + pole_length * sin theta, - pole_length * cos theta)] and the tip of
    the target, divided by [2 * pole_length]. *)
Theorem forward_is_exp_of_negative_cost (r : env.CartpoleReward)
    (u : list R) (x0 x1 th x3 t0 t1 tth t3 : R) :
  env.target r = [t0; t1; tth; t3] ->
  reference.matrix 2 2 (env.Q r) ->
  reference.matrix (length u) (length u) (env.R_ r) ->
  let l := env.pole_length r in
  let delta := [((x0 + l * sin th) - (t0 + l * sin tth)) / (2 * l);
                ((- l * cos th) - (- l * cos tth)) / (2 * l)] in
  let cost := 0.5 * (reference.quadratic_form delta (env.Q r)
                     + reference.quadratic_form u (env.R_ r)) in
  env.forward r [x0; x1; th; x3] u = py.Ok (exp (- cost)).
Proof.
  intros Ht HQ HR l delta cost.
  rewrite (forward_value r u x0 x1 th x3 t0 t1 tth t3 Ht HQ HR).
  reflexivity.
Qed.

Lemma forward_is_exp_of_negative_cost_witness :
  env.forward (env.CartpoleReward_init (Some 0.5) None None None)
    [0; 0; 0; 0] [0]
  = py.Ok (exp (- (0.5 *
      (reference.quadratic_form
         [((0 + 0.5 * sin 0) - (0 + 0.5 * sin PI)) / (2 * 0.5);
          ((- (0.5) * cos 0) - (- (0.5) * cos PI)) / (2 * 0.5)]
         env.default_Q
       + reference.quadratic_form [0] env.default_R)))).
Proof.
  apply (forward_is_exp_of_negative_cost
           (env.CartpoleReward_init (Some 0.5) None None None)
           [0] 0 0 0 0 0 0 PI 0).
  - reflexivity.
  - split; [reflexivity | repeat constructor].
  - split; [reflexivity | repeat constructor].
Defined.

(** C2. The reward of a four-dimensional state does not change when its
    angle entry is increased by [2 * PI]. *)
Theorem forward_angle_wrap_invariant (r : env.CartpoleReward)
    (u : list R) (x0 x1 th x3 : R) :
  env.forward r [x0; x1; th + 2 * PI; x3] u
  = env.forward r [x0; x1; th; x3] u.
Proof.
  unfold env.forward.
  destruct (angles.to_complex (env.target r) 2) as [targeta|e];
    [|reflexivity].
  cbv beta iota delta [py.bind].
  destruct (env.tip_xy (env.pole_length r) targeta) as [tip|e];
    [|reflexivity].
  change (length [x0; x1; th + 2 * PI; x3]) with (length [x0; x1; th; x3]).
  destruct (negb (length [x0; x1; th; x3] =? length targeta)%nat).
  - rewrite !to_complex_state.
    replace (sin (th + 2 * PI)) with (sin th)
      by (rewrite sin_plus, sin_2PI, cos_2PI; ring).
    replace (cos (th + 2 * PI)) with (cos th)
      by (rewrite cos_plus, sin_2PI, cos_2PI; ring).
    reflexivity.
  - reflexivity.
Qed.

(** The reward under the default weights, in closed form. *)
Lemma forward_default_weights (l t0 t1 tth t3 x0 x1 th x3 u0 : R) :
  env.forward (env.CartpoleReward_init (Some l) (Some [t0; t1; tth; t3])
                 None None)
    [x0; x1; th; x3] [u0]
  = py.Ok (exp (- (0.5 * (16 * (((x0 + l * sin th) - (t0 + l * sin tth))
                                / (2 * l))²
                          + 16 * (((- l * cos th) - (- l * cos tth))
                                  / (2 * l))²
                          + 1e-4 * u0²)))).
Proof.
  rewrite (forward_value _ [u0] x0 x1 th x3 t0 t1 tth t3);
    [ | reflexivity
      | split; [reflexivity | repeat constructor]
      | split; [reflexivity | repeat constructor] ].
  do 2 f_equal.
  unfold reference.quadratic_cost, reference.quadratic_form, reference.dot,
    reference.normalized_displacement, reference.pole_tip, Rsqr.
  simpl. lra.
Qed.

Lemma exp_neg_range (c : R) : 0 <= c -> 0 < exp (- c) <= 1.
Proof.
  intros Hc. split; [apply exp_pos |].
  rewrite <- exp_0. destruct Hc as [Hc | <-].
  - left. apply exp_increasing. lra.
  - right. f_equal. ring.
Qed.

Lemma exp_neg_eq_1 (c : R) : exp (- c) = 1 <-> c = 0.
Proof.
  split.
  - intros H. rewrite <- exp_0 in H. apply exp_inv in H. lra.
  - intros ->. rewrite Ropp_0. apply exp_0.
Qed.



End Reward.

(** ** Cartpole *)

Section CartpoleEnv.

Open Scope R_scope.

(** C8. Without a model the environment uses [CartpoleModel()]; with
    [reward_func] [None] or any value that is not callable, the reward is a
    [CartpoleReward] with the defaults of its constructor and the pole length
    [lp] of the model in use; a callable [reward_func] is used as given. *)
Theorem Cartpole_init_defaults (default_model : env.CartpoleModel) :
  (forall rf, env.model (env.Cartpole_init default_model None rf)
              = default_model)
  /\ (forall m rf, env.model (env.Cartpole_init default_model (Some m) rf)
                   = m)
  /\ (forall model f,
        env.reward_func
          (env.Cartpole_init default_model model (env.RewardCallable f))
        = env.UserReward f)
  /\ (forall model,
        let c := env.Cartpole_init default_model model env.RewardNone in
        exists r, env.reward_func c = env.RewardModule r
                  /\ env.pole_length r = env.lp (env.model c)
                  /\ env.Q r = env.default_Q /\ env.R_ r = env.default_R
                  /\ env.target r = env.default_target)
  /\ (forall model obj,
        let c := env.Cartpole_init default_model model (env.RewardOther obj) in
        exists r, env.reward_func c = env.RewardModule r
                  /\ env.pole_length r = env.lp (env.model c)
                  /\ env.Q r = env.default_Q /\ env.R_ r = env.default_R
                  /\ env.target r = env.default_target).
Proof.
  repeat split; intros; try reflexivity;
    eexists; repeat split; reflexivity.
Qed.

Lemma ltb_true (a b : R) : env.ltb a b = true <-> a < b.
Proof.
  unfold env.ltb. destruct (Rlt_dec a b); split; intros; auto; discriminate.
Qed.

Lemma outside_spec (s : list R) (i : nat) (v lo hi : R) (self : env.Cartpole) :
  env.state self = Some s ->
  nth_error s i = Some v ->
  env.outside (env.state_at self i) [lo; hi]
  = py.Ok (env.ltb v lo || env.ltb hi v)%bool.
Proof.
  intros Hs Hv. unfold env.outside, env.state_at, torch.index.
  rewrite Hs, Hv. simpl. destruct (env.ltb v lo); reflexivity.
Qed.

(** The value of [done] that [step] returns. *)
Lemma step_done_value {Info : Type}
    (base_step : env.Cartpole -> list R ->
                 py.result (env.Cartpole * env.step_result Info))
    (self self' : env.Cartpole) (action : list R)
    (res : env.step_result Info) (s0 s1 s2 lo hi alo ahi : R) (tl : list R) :
  base_step self action = py.Ok (self', res) ->
  env.state self' = Some (s0 :: s1 :: s2 :: tl) ->
  env.step base_step self action [lo; hi] [alo; ahi]
  = py.Ok (self',
           {| env.obs := env.obs res; env.reward := env.reward res;
              env.done := ((env.ltb s2 alo || env.ltb ahi s2)
                           || ((env.ltb s0 lo || env.ltb hi s0)
                               || env.done res))%bool;
              env.info := env.info res |}).
Proof.
  intros Hb Hs. unfold env.step. rewrite Hb. cbv beta iota delta [py.bind].
  rewrite (outside_spec _ 0 s0 lo hi self' Hs eq_refl).
  rewrite (outside_spec _ 2 s2 alo ahi self' Hs eq_refl).
  destruct (env.ltb s2 alo || env.ltb ahi s2)%bool,
           (env.ltb s0 lo || env.ltb hi s0)%bool; reflexivity.
Qed.

(** C9. With the default limits, [step] returns [done = True] whenever the
    cart position [self.state[0]] after the base-class step is outside
    [-3.5, 3.5] or the angle [self.state[2]] is outside [-4 PI, 4 PI], and a
    [done = True] of the base class is never turned into [False]. *)
Theorem step_done_outside_limits {Info : Type}
    (base_step : env.Cartpole -> list R ->
                 py.result (env.Cartpole * env.step_result Info))
    (self self' : env.Cartpole) (action : list R)
    (res : env.step_result Info) (s0 s1 s2 : R) (tl : list R) :
  base_step self action = py.Ok (self', res) ->
  env.state self' = Some (s0 :: s1 :: s2 :: tl) ->
  exists d,
    env.step base_step self action env.default_x_lim env.default_ang_lim
    = py.Ok (self', {| env.obs := env.obs res; env.reward := env.reward res;
                       env.done := d; env.info := env.info res |})
    /\ (s0 < -3.5 \/ s0 > 3.5 \/ s2 < -4 * PI \/ s2 > 4 * PI -> d = true)
    /\ (env.done res = true -> d = true)
    /\ (d = true ->
        env.done res = true
        \/ s0 < -3.5 \/ s0 > 3.5 \/ s2 < -4 * PI \/ s2 > 4 * PI).
Proof.
  intros Hb Hs. eexists. split.
  - apply (step_done_value base_step self self' action res
             s0 s1 s2 (-3.5) 3.5 (-4 * PI) (4 * PI) tl Hb Hs).
  - repeat split.
    + intros H. rewrite !orb_true_iff, !ltb_true.
      unfold Rgt in H. tauto.
    + intros ->. rewrite !orb_true_r. reflexivity.
    + rewrite !orb_true_iff, !ltb_true. unfold Rgt. tauto.
Qed.

Lemma step_done_outside_limits_witness :
  exists self' res,
    env.step inputs.base_step_far
      (env.Cartpole_init inputs.some_model None env.RewardNone) [0]
      env.default_x_lim env.default_ang_lim
    = py.Ok (self', res)
    /\ env.state self' = Some [4; 0; 0; 0]
    /\ env.done res = true.
Proof.
  destruct (step_done_outside_limits inputs.base_step_far
              (env.Cartpole_init inputs.some_model None env.RewardNone)
              _ [0] _ 4 0 0 [0] eq_refl eq_refl)
    as [d [Hstep [Hout _]]].
  eexists. eexists. split; [exact Hstep |].
  split; [reflexivity | apply Hout; lra].
Defined.

End CartpoleEnv.

(** ** tqdm_joblib *)

Section TqdmJoblibFacts.

Variable Rest : Type.
Variable installed_call : nat -> nat -> core.process Rest -> core.process Rest.

Lemma set_bar_same (bar : nat) (t : core.tqdm) (p : core.process Rest) :
  core.bars Rest (core.set_bar Rest bar t p) bar = t.
Proof. unfold core.set_bar; simpl. rewrite Nat.eqb_refl. reflexivity. Qed.

(** C6. Whether the body returns or raises, when the [with] block is left
    [joblib.parallel.BatchCompletionCallBack] is what it was on entry and the
    progress bar is closed, and the outcome of the block is the outcome of
    the body; the body runs with the callback replaced by a subclass of the
    old one whose call first advances the bar by [batch_size]. *)
Theorem tqdm_joblib_restores_and_closes {A : Type} (tqdm_object : nat)
    (body : nat -> pyst.M (core.process Rest) A) (p : core.process Rest) :
  let old := core.BatchCompletionCallBack Rest p in
  let patched :=
    core.set_callback Rest
      (core.TqdmBatchCompletionCallback tqdm_object old) p in
  let after_body := fst (body tqdm_object patched) in
  let exit := core.tqdm_joblib Rest tqdm_object body p in
  core.BatchCompletionCallBack Rest (fst exit) = old
  /\ core.closed (core.bars Rest (fst exit) tqdm_object) = true
  /\ snd exit = snd (body tqdm_object patched)
  /\ core.rest Rest (fst exit) = core.rest Rest after_body
  /\ core.n (core.bars Rest (fst exit) tqdm_object)
     = core.n (core.bars Rest after_body tqdm_object)
  /\ core.BatchCompletionCallBack Rest patched
     = core.TqdmBatchCompletionCallback tqdm_object old
  /\ (forall k q,
        core.call_callback Rest installed_call
          (core.BatchCompletionCallBack Rest patched) k q
        = core.call_callback Rest installed_call old k
            (core.tqdm_update Rest tqdm_object k q))
  /\ (forall k q,
        core.n (core.bars Rest (core.tqdm_update Rest tqdm_object k q)
                  tqdm_object)
        = (core.n (core.bars Rest q tqdm_object) + k)%nat).
Proof.
  cbv zeta. unfold core.tqdm_joblib, pyst.try_finally.
  destruct (body tqdm_object _) as [q r] eqn:Hbody. simpl fst. simpl snd.
  repeat split.
  - unfold core.tqdm_close. rewrite set_bar_same. reflexivity.
  - unfold core.tqdm_close. rewrite set_bar_same. reflexivity.
  - intros k q'. unfold core.tqdm_update. rewrite set_bar_same. reflexivity.
Qed.

End TqdmJoblibFacts.

(** ** load_checkpoint *)

Section LoadCheckpointFacts.

Variables (Params World : Type).
Variable torch_load : string -> World -> World * py.result Params.

(** C5, at a path that [os.path.join] refuses.  The dynamics and policy
    blocks warn and go on; in the experience block the name [exp_path] is
    still unbound when the handler formats its message, so the handler
    itself raises and [load_checkpoint] ends with [UnboundLocalError]. *)
Theorem load_checkpoint_None_path_raises
    (dyn pol : core.loader Params World) (exp : core.exp_loader World)
    (w : World) :
  core.load_checkpoint Params World torch_load core.PathNone dyn pol exp None
    (core.ck_init World w)
  = ({| core.world := w; core.val_path := None; core.exp_path := None;
        core.calls :=
          [core.CallJoin "latest_dynamics.pth.tar";
           core.CallWarn
             "Unable to load dynamics model parameters at None";
           core.CallJoin "latest_policy.pth.tar";
           core.CallWarn
             "Unable to load dynamics model parameters at None";
           core.CallJoin "experience.pth.tar"] |},
     py.Raise py.UnboundLocalError).
Proof. reflexivity. Qed.

(** The same happens in the critic block when a critic is given. *)
Lemma load_checkpoint_None_path_critic_raises
    (dyn pol val : core.loader Params World) (exp : core.exp_loader World)
    (w : World) :
  snd (core.load_checkpoint Params World torch_load core.PathNone dyn pol exp
         (Some val) (core.ck_init World w))
  = py.Raise py.UnboundLocalError.
Proof. reflexivity. Qed.

Lemma os_path_join_str (s name : string) :
  exists file, core.os_path_join (core.PathStr s) name = py.Ok file.
Proof.
  unfold core.os_path_join.
  destruct (String.eqb s "" || core.ends_with_slash s)%bool;
    eexists; reflexivity.
Qed.

(** X29. For a [str] path, and loads that raise nothing outside [Exception],
    every block is entered and [load_checkpoint] returns normally. *)
Lemma load_checkpoint_str_path_returns
    (s : string) (dyn pol : core.loader Params World)
    (exp : core.exp_loader World) (val : option (core.loader Params World))
    (w : World) :
  (forall file w0 e, snd (torch_load file w0) = py.Raise e ->
                     py.is_Exception e = true) ->
  (forall ps w0 e, snd (dyn ps w0) = py.Raise e -> py.is_Exception e = true) ->
  (forall ps w0 e, snd (pol ps w0) = py.Raise e -> py.is_Exception e = true) ->
  (forall v ps w0 e, val = Some v -> snd (v ps w0) = py.Raise e ->
                     py.is_Exception e = true) ->
  (forall file w0 e, snd (exp file w0) = py.Raise e ->
                     py.is_Exception e = true) ->
  let out := core.load_checkpoint Params World torch_load (core.PathStr s)
               dyn pol exp val (core.ck_init World w) in
  snd out = py.Ok tt
  /\ In (core.CallJoin "latest_dynamics.pth.tar") (core.calls World (fst out))
  /\ In (core.CallJoin "latest_policy.pth.tar") (core.calls World (fst out))
  /\ In (core.CallJoin "experience.pth.tar") (core.calls World (fst out))
  /\ (val <> None ->
      In (core.CallJoin "latest_critic.pth.tar")
         (core.calls World (fst out))).
Proof.
  intros Ht Hd Hp Hv He. cbv zeta.
  unfold core.load_checkpoint, core.join, core.extern, core.warn, core.log,
    core.set_val_path, core.set_exp_path, core.get_val_path, core.get_exp_path,
    pyst.try_except_Exception, pyst.bind, pyst.ret, core.ck_init.
  destruct (os_path_join_str s "latest_dynamics.pth.tar") as [f1 ->].
  destruct (os_path_join_str s "latest_policy.pth.tar") as [f2 ->].
  destruct (os_path_join_str s "latest_critic.pth.tar") as [f3 ->].
  destruct (os_path_join_str s "experience.pth.tar") as [f4 ->].
  destruct val as [v|];
  repeat (cbn [core.world core.calls core.val_path core.exp_path
               py.read_local snd fst];
    match goal with
    | |- context [torch_load ?f ?w0] =>
        let H := fresh "H" in
        destruct (torch_load f w0) as [? [?|?]] eqn:H;
        [| erewrite Ht by (rewrite H; reflexivity)]
    | |- context [dyn ?a ?w0] =>
        let H := fresh "H" in
        destruct (dyn a w0) as [? [[]|?]] eqn:H;
        [| erewrite Hd by (rewrite H; reflexivity)]
    | |- context [pol ?a ?w0] =>
        let H := fresh "H" in
        destruct (pol a w0) as [? [[]|?]] eqn:H;
        [| erewrite Hp by (rewrite H; reflexivity)]
    | |- context [v ?a ?w0] =>
        let H := fresh "H" in
        destruct (v a w0) as [? [[]|?]] eqn:H;
        [| erewrite (Hv v) by (try reflexivity; rewrite H; reflexivity)]
    | |- context [exp ?a ?w0] =>
        let H := fresh "H" in
        destruct (exp a w0) as [? [[]|?]] eqn:H;
        [| erewrite He by (rewrite H; reflexivity)]
    end);
  (split; [reflexivity |]);
  rewrite ?in_app_iff; simpl; intuition congruence.
Qed.

End LoadCheckpointFacts.

(** ** batch_jacobian *)

Section BatchJacobianFacts.

Open Scope R_scope.

Variable f_row : list R -> list R.
Variable jac : list R -> list (list R).

Lemma same_shape_rows (A B : list (list R)) :
  length A <> length B -> core.same_shape A B = false.
Proof.
  revert B; induction A as [|a A IH]; intros [|b B] H; simpl in *;
    try reflexivity; try congruence.
  rewrite IH by congruence. apply andb_false_r.
Qed.

Lemma eye_length (n : nat) : length (torch.eye n) = n.
Proof. unfold torch.eye. rewrite length_map, length_seq. reflexivity. Qed.

(** Whenever the number of outputs differs from the number of inputs, the
    gradient seed [torch.eye(x.shape[-1])] does not have the shape of
    [y_rep] and [grad] raises. *)
Lemma batch_jacobian_not_square_raises (x : list R) :
  length (f_row x) <> length x ->
  core.batch_jacobian f_row jac x None = py.Raise py.RuntimeError.
Proof.
  intros H. unfold core.batch_jacobian, core.autograd_grad, core.f.
  rewrite same_shape_rows; [reflexivity |].
  rewrite eye_length, length_map, repeat_length. congruence.
Qed.

Lemma zip_plus_zero_r (row : list R) :
  torch.zip_with Rplus (map (Rmult 1) row) (repeat 0 (length row)) = row.
Proof.
  induction row as [|a row IH]; simpl; [reflexivity |].
  rewrite IH. f_equal. ring.
Qed.

Lemma zip_plus_zero_l (row v : list R) :
  length v = length row ->
  torch.zip_with Rplus (map (Rmult 0) row) v = v.
Proof.
  revert v; induction row as [|a row IH]; intros [|b v] H; simpl in *;
    try reflexivity; try discriminate.
  rewrite IH by congruence. f_equal. ring.
Qed.

(** A row of the identity selects a row of the matrix. *)
Lemma mm_row_indicator (len s i k : nat) (M : list (list R)) :
  length M = len ->
  Forall (fun row => length row = k) M ->
  torch.mm_row (map (fun j => if Nat.eqb i j then 1 else 0) (seq s len)) M k
  = if (Nat.leb s i && Nat.ltb i (s + len))%bool
    then nth (i - s) M []
    else repeat 0 k.
Proof.
  revert s M; induction len as [|len IH]; intros s [|row M] Hl HM;
    simpl in Hl; try discriminate.
  - simpl. destruct (Nat.leb_spec s i), (Nat.ltb_spec i (s + 0));
      simpl; try reflexivity; lia.
  - inversion HM as [|? ? Hrow HM']; subst. simpl seq. simpl map.
    simpl torch.mm_row. rewrite IH by (auto; congruence).
    destruct (Nat.eqb_spec i s) as [-> | Hne].
    + replace (Nat.leb (S s) s) with false
        by (symmetry; apply Nat.leb_gt; lia).
      rewrite Nat.leb_refl.
      replace (Nat.ltb s (s + S len)) with true
        by (symmetry; apply Nat.ltb_lt; lia).
      simpl andb. cbv iota. rewrite Nat.sub_diag. simpl nth.
      apply zip_plus_zero_r.
    + rewrite zip_plus_zero_l.
      * destruct (Nat.leb_spec (S s) i), (Nat.ltb_spec i (S s + len)),
          (Nat.leb_spec s i), (Nat.ltb_spec i (s + S len));
          simpl andb; cbv iota; try reflexivity; try lia.
        replace (i - s)%nat with (S (i - S s)) by lia. reflexivity.
      * destruct (Nat.leb_spec (S s) i), (Nat.ltb_spec i (S s + len));
          simpl andb; cbv iota; try apply repeat_length.
        assert (Hin : In (nth (i - S s) M []) M)
          by (apply nth_In; lia).
        rewrite Forall_forall in HM'. apply HM'. assumption.
Qed.

Lemma vjp_rows_eye (x : list R) (n s m : nat) :
  core.vjp_rows jac (repeat x m) (map (torch.eye_row n) (seq s m))
  = map (fun i => torch.mm_row (torch.eye_row n i) (jac x) (length x))
        (seq s m).
Proof.
  revert s; induction m as [|m IH]; intros s; simpl; [reflexivity |].
  rewrite IH. reflexivity.
Qed.

Lemma same_shape_eye (y : list R) (n s m : nat) :
  length y = n ->
  core.same_shape (map (torch.eye_row n) (seq s m)) (repeat y m) = true.
Proof.
  intros Hy. revert s; induction m as [|m IH]; intros s; simpl;
    [reflexivity |].
  rewrite IH. unfold torch.eye_row at 1.
  rewrite length_map, length_seq, Hy, Nat.eqb_refl. reflexivity.
Qed.

Lemma map_nth_seq_all (M : list (list R)) :
  map (fun i => nth i M []) (seq 0 (length M)) = M.
Proof.
  apply nth_ext with (d := []) (d' := []).
  - rewrite length_map, length_seq. reflexivity.
  - intros i Hi. rewrite length_map, length_seq in Hi.
    rewrite (nth_indep _ [] (nth 0 M [])) by
      (rewrite length_map, length_seq; assumption).
    rewrite (map_nth (fun i => nth i M [])), seq_nth by assumption.
    reflexivity.
Qed.


End BatchJacobianFacts.

(** C7, at a function with two inputs and three outputs.  The gradient seed
    is [torch.eye(2)] while [y_rep] is 3 x 3, so [grad] raises and no
    Jacobian is returned. *)
Theorem batch_jacobian_rectangular_raises :
  core.batch_jacobian inputs.f3 inputs.jac3 [1%R; 2%R] None
  = py.Raise py.RuntimeError.
Proof. reflexivity. Qed.

(** ** train_model *)

Section TrainModelFacts.

Open Scope R_scope.

Variables (Sample Model Opt : Type).
Variable shuffle : nat -> list Sample -> list Sample.
Variable log_prob_mean : bool -> Model -> list Sample -> R.
Variable regularization_loss : Model -> R.
Variable opt_step : Opt -> (Model -> R) -> Model -> Opt * Model.
Variable Adam : Model -> Opt.

Abbreviation DataLoader := (core.DataLoader Sample).
Abbreviation train_state := (core.train_state Sample Model Opt).
Abbreviation next_batch := (core.next_batch Sample Model Opt shuffle).
Abbreviation train_loop :=
  (core.train_loop Sample Model Opt log_prob_mean regularization_loss opt_step).
Abbreviation gradient_steps :=
  (core.gradient_steps Sample Model Opt log_prob_mean regularization_loss
     opt_step).
Abbreviation loss_fn :=
  (core.loss_fn Sample Model log_prob_mean regularization_loss).

(** Every call of [next_batch] makes a new iterator and returns its first
    batch; the iterator of [train_model] is left as it was. *)
Lemma next_batch_fresh_iterator (dl : DataLoader) (st : train_state) :
  next_batch dl st
  = match core.iter Sample shuffle dl (core.iters_made _ _ _ st) with
    | [] => py.Raise py.StopIteration
    | b :: _ =>
        py.Ok (b, {| core.model := core.model _ _ _ st;
                     core.training := core.training _ _ _ st;
                     core.opt := core.opt _ _ _ st;
                     core.iters_made := S (core.iters_made _ _ _ st);
                     core.data_iter := core.data_iter _ _ _ st;
                     core.steps := core.steps _ _ _ st |})
    end.
Proof.
  unfold core.next_batch, core.next_batch_body. simpl.
  destruct (core.iter Sample shuffle dl _); reflexivity.
Qed.

Lemma chunks_first (size : nat) (l : list Sample) :
  l <> [] ->
  exists rest, core.chunks Sample (length l) size l = firstn size l :: rest.
Proof.
  destruct l as [|a l]; [congruence |]. intros _. simpl length.
  cbn [core.chunks]. eexists. reflexivity.
Qed.

Section Run.

Variable data : list Sample.
Variable batch_size : nat.
Variable resample : bool.
Hypothesis data_nonempty : data <> [].
Hypothesis batch_size_positive : batch_size <> 0%nat.
Hypothesis shuffle_permutes : forall k, Permutation (shuffle k data) data.

Abbreviation dl :=
  ({| core.dataset := data; core.batch_size := batch_size |} : DataLoader).

Abbreviation good_step :=
  (core.recorded_step Sample Model Opt log_prob_mean regularization_loss
     opt_step resample data).

Lemma next_batch_returns (st : train_state) :
  exists b,
    next_batch dl st
    = py.Ok (b, {| core.model := core.model _ _ _ st;
                   core.training := core.training _ _ _ st;
                   core.opt := core.opt _ _ _ st;
                   core.iters_made := S (core.iters_made _ _ _ st);
                   core.data_iter := core.data_iter _ _ _ st;
                   core.steps := core.steps _ _ _ st |})
    /\ b <> [] /\ incl b data.
Proof.
  rewrite next_batch_fresh_iterator. unfold core.iter. simpl.
  set (k := core.iters_made _ _ _ st).
  pose proof (shuffle_permutes k) as Hp.
  assert (Hne : shuffle k data <> []).
  { intros E. rewrite E in Hp. apply Permutation_nil in Hp. congruence. }
  destruct (chunks_first batch_size _ Hne) as [rest ->].
  eexists. split; [reflexivity |]. split.
  - destruct (shuffle k data) as [|a l]; [congruence |].
    destruct batch_size; [congruence | discriminate].
  - intros a Ha. apply (Permutation_in _ Hp).
    rewrite <- (firstn_skipn batch_size). apply in_or_app. left. assumption.
Qed.

Lemma train_loop_runs (n_iters : nat) (st : train_state) :
  exists st',
    train_loop next_batch dl resample n_iters st = py.Ok st'
    /\ length (core.steps _ _ _ st')
       = (length (core.steps _ _ _ st) + n_iters)%nat
    /\ core.training _ _ _ st' = core.training _ _ _ st
    /\ (exists new,
          core.steps _ _ _ st' = core.steps _ _ _ st ++ new
          /\ Forall good_step new
          /\ (core.opt _ _ _ st', core.model _ _ _ st')
             = gradient_steps resample (length data)
                 (map (core.step_batch _ _ _) new)
                 (core.opt _ _ _ st, core.model _ _ _ st)).
Proof.
  revert st; induction n_iters as [|n IH]; intros st.
  - exists st. simpl. repeat split; auto.
    exists []. rewrite app_nil_r. repeat split; auto.
  - destruct (next_batch_returns st) as [b [Hb [Hbne Hbin]]].
    cbn [core.train_loop]. unfold core.train_iteration at 1.
    rewrite Hb. cbv beta iota delta [py.bind].
    match goal with
    | |- context [train_loop _ _ _ n ?s] =>
        destruct (IH s) as [st' [Hrun [Hlen [Htr [new [Hsteps [Hgood Hgs]]]]]]]
    end.
    exists st'. rewrite Hrun. cbn in Hlen, Htr, Hsteps, Hgs.
    split; [reflexivity |]. split.
    { rewrite Hlen, length_app. simpl. lia. }
    split; [assumption |].
    eexists (_ :: new). split; [| split].
    + rewrite Hsteps, <- app_assoc. reflexivity.
    + constructor; [| assumption]. repeat split; auto.
    + rewrite <- surjective_pairing in Hgs. rewrite Hgs. reflexivity.
Qed.


End Run.

End TrainModelFacts.


(** C4, on a dataset of two samples with batches of one, for a sampler that
    draws the same order every time.  Both iterations of [train_model] take
    the first batch of an iterator made for that iteration: three iterators
    are made in all and the second sample is never drawn.  With [data_iter]
    resolved to the variable of [train_model], the two iterations take the
    two batches of the one iterator. *)
Theorem train_model_restarts_iterator_each_iteration :
  (match core.train_model nat unit unit inputs.same_order inputs.no_log_prob
           inputs.no_reg inputs.no_step inputs.no_Adam tt [1; 2] 2 None
           true 1 with
   | py.Ok st => Some (core.batches_drawn _ _ _ st,
                       core.iters_made _ _ _ st,
                       core.data_iter _ _ _ st)
   | py.Raise _ => None
   end) = Some ([[1]; [1]], 3, [[1]; [2]])
  /\
  (match core.train_model_enclosing nat unit unit inputs.same_order
           inputs.no_log_prob inputs.no_reg inputs.no_step inputs.no_Adam
           tt [1; 2] 2 None true 1 with
   | py.Ok st => Some (core.batches_drawn _ _ _ st,
                       core.iters_made _ _ _ st,
                       core.data_iter _ _ _ st)
   | py.Raise _ => None
   end) = Some ([[1]; [2]], 1, []).
Proof. split; reflexivity. Qed.

(** Once its iterator is exhausted, the loop with the enclosing variable
    makes the second iterator of the run. *)
Lemma train_model_enclosing_new_epoch :
  (match core.train_model_enclosing nat unit unit inputs.same_order
           inputs.no_log_prob inputs.no_reg inputs.no_step inputs.no_Adam
           tt [1; 2] 3 None true 1 with
   | py.Ok st => Some (core.batches_drawn _ _ _ st,
                       core.iters_made _ _ _ st,
                       core.data_iter _ _ _ st)
   | py.Raise _ => None
   end) = Some ([[1]; [2]; [1]], 2, [[2]]).
Proof. reflexivity. Qed.

(** ** polyak_averaging *)

Section PolyakAveraging.

Open Scope R_scope.

Lemma zip_with_ext (g h : R -> R -> R) (a b : list R) :
  (forall x y, g x y = h x y) -> torch.zip_with g a b = torch.zip_with h a b.
Proof.
  intros E. revert b; induction a as [|x a IH]; intros [|y b]; simpl;
    try reflexivity.
  rewrite E, IH. reflexivity.
Qed.

Lemma zip_with_maps (g : R -> R -> R) (h k : R -> R) (a b : list R) :
  torch.zip_with g (map h a) (map k b)
  = torch.zip_with (fun x y => g (h x) (k y)) a b.
Proof.
  revert b; induction a as [|x a IH]; intros [|y b]; simpl; try reflexivity.
  rewrite IH. reflexivity.
Qed.

(** One parameter of the right shape: the copy succeeds and stores the
    convex combination. *)
Lemma polyak_one (tau : R) (p t : list R) :
  length p = length t ->
  (v <- torch.add (map (Rmult tau) p) (map (Rmult (1 - tau)) t) ;;
   torch.copy_ t v)
  = py.Ok (torch.zip_with (fun a b => a + (1 - tau) * (b - a)) p t).
Proof.
  intros H. unfold torch.add. rewrite !length_map, H, Nat.eqb_refl.
  cbv beta iota delta [py.bind]. unfold torch.copy_.
  rewrite zip_with_length, !length_map, H, Nat.min_id, Nat.eqb_refl.
  f_equal. rewrite zip_with_maps. apply zip_with_ext. intros; ring.
Qed.

Lemma polyak_step (tau : R) (current target : list (list R)) :
  reference.same_shapes current target ->
  core.polyak_averaging current target tau
  = (reference.toward (1 - tau) current target, py.Ok tt).
Proof.
  induction 1 as [|p t current target Hpt Hrest IH]; [reflexivity |].
  cbn [core.polyak_averaging]. rewrite (polyak_one tau p t Hpt), IH.
  reflexivity.
Qed.

Lemma toward_same_shapes (w : R) (current target : list (list R)) :
  reference.same_shapes current target ->
  reference.same_shapes current (reference.toward w current target).
Proof.
  induction 1 as [|p t current target Hpt Hrest IH]; constructor.
  - simpl. rewrite zip_with_length, Hpt, Nat.min_id. reflexivity.
  - exact IH.
Qed.

Lemma zip_with_toward (w v : R) (p t : list R) :
  torch.zip_with (fun a b => a + w * (b - a)) p
    (torch.zip_with (fun a b => a + v * (b - a)) p t)
  = torch.zip_with (fun a b => a + (w * v) * (b - a)) p t.
Proof.
  revert t; induction p as [|a p IH]; intros [|b t]; simpl; try reflexivity.
  rewrite IH. f_equal. ring.
Qed.

Lemma toward_toward (w v : R) (current target : list (list R)) :
  reference.toward w current (reference.toward v current target)
  = reference.toward (w * v) current target.
Proof.
  revert target; induction current as [|p current IH]; intros [|t target];
    try reflexivity.
  unfold reference.toward in *. simpl. rewrite zip_with_toward, IH.
  reflexivity.
Qed.

Lemma toward_1 (current target : list (list R)) :
  reference.same_shapes current target ->
  reference.toward 1 current target = target.
Proof.
  induction 1 as [|p t current target Hpt Hrest IH]; [reflexivity |].
  unfold reference.toward in *. simpl. rewrite IH. f_equal.
  clear - Hpt. revert t Hpt; induction p as [|a p IHp]; intros [|b t] H;
    simpl in *; try reflexivity; try discriminate.
  rewrite IHp by congruence. f_equal. ring.
Qed.

(** X1. With parameters of the same shapes, [k] calls of
    [polyak_averaging] leave every entry of the target at
    [current + (1 - tau)^k * (target - current)]: each call returns normally
    and shrinks the gap to [current] by the factor [1 - tau]. *)
Theorem polyak_averaging_k_calls (tau : R) (k : nat)
    (current target : list (list R)) :
  reference.same_shapes current target ->
  Nat.iter k (fun tg => fst (core.polyak_averaging current tg tau)) target
  = reference.toward ((1 - tau) ^ k) current target
  /\ snd (core.polyak_averaging current
            (Nat.iter k (fun tg => fst (core.polyak_averaging current tg tau))
               target) tau) = py.Ok tt.
Proof.
  intros H.
  assert (Hk : Nat.iter k
                 (fun tg => fst (core.polyak_averaging current tg tau)) target
               = reference.toward ((1 - tau) ^ k) current target).
  { induction k as [|k IH]; simpl.
    - symmetry. apply toward_1. exact H.
    - rewrite IH, polyak_step by (apply toward_same_shapes; exact H).
      simpl. apply toward_toward. }
  split; [exact Hk |].
  rewrite Hk, polyak_step by (apply toward_same_shapes; exact H).
  reflexivity.
Qed.

Lemma polyak_averaging_k_calls_witness :
  Nat.iter 2
    (fun tg => fst (core.polyak_averaging [[1; 2]; [3]] tg (1 / 2)))
    [[5; 6]; [7]]
  = reference.toward ((1 - 1 / 2) ^ 2) [[1; 2]; [3]] [[5; 6]; [7]]
  /\ snd (core.polyak_averaging [[1; 2]; [3]]
            (Nat.iter 2
               (fun tg => fst (core.polyak_averaging [[1; 2]; [3]] tg (1 / 2)))
               [[5; 6]; [7]]) (1 / 2)) = py.Ok tt.
Proof.
  apply (polyak_averaging_k_calls (1 / 2) 2 [[1; 2]; [3]] [[5; 6]; [7]]).
  repeat constructor.
Defined.

Lemma copy_length (dst src new : list R) :
  torch.copy_ dst src = py.Ok new -> length new = length dst.
Proof.
  unfold torch.copy_. destruct (Nat.eqb_spec (length src) (length dst)).
  - intros [= <-]. assumption.
  - destruct src as [|c [|? ?]]; try discriminate.
    intros [= <-]. apply length_map.
Qed.

Lemma same_shapes_refl (A : list (list R)) : reference.same_shapes A A.
Proof. induction A; constructor; auto. Qed.

(** X2. Whatever the shapes and whether or not it raises,
    [polyak_averaging] keeps the number of parameters of the target and the
    shape of each, and leaves untouched the parameters of the target beyond
    the number of parameters of [current]. *)
Theorem polyak_averaging_keeps_shapes (tau : R)
    (current target : list (list R)) :
  let target' := fst (core.polyak_averaging current target tau) in
  length target' = length target
  /\ reference.same_shapes target target'
  /\ skipn (length current) target' = skipn (length current) target.
Proof.
  cbv zeta. revert target; induction current as [|p current IH];
    intros [|t target]; simpl;
    try (repeat split; apply same_shapes_refl).
  destruct (v <- torch.add (map (Rmult tau) p) (map (Rmult (1 - tau)) t) ;;
            torch.copy_ t v) as [new|e] eqn:Hnew.
  - destruct (IH target) as [Hl [Hs Hk]].
    destruct (core.polyak_averaging current target tau) as [rest r].
    simpl in *. repeat split; [congruence | | assumption].
    constructor; [| assumption].
    unfold py.bind in Hnew. destruct (torch.add _ _); [| discriminate].
    symmetry. eapply copy_length. exact Hnew.
  - simpl. repeat split. apply same_shapes_refl.
Qed.

End PolyakAveraging.

(** ** threshold_linear *)

Section ThresholdLinear.

Open Scope R_scope.

Lemma Int_part_mono (a b : R) : a <= b -> (Int_part a <= Int_part b)%Z.
Proof.
  intros H.
  destruct (base_Int_part a) as [Ha _], (base_Int_part b) as [_ Hb].
  assert (Hlt : IZR (Int_part a) < IZR (Int_part b + 1)).
  { rewrite plus_IZR. lra. }
  apply lt_IZR in Hlt. lia.
Qed.

Lemma Int_part_nonneg (a : R) : 0 <= a -> (0 <= Int_part a)%Z.
Proof.
  intros H. destruct (base_Int_part a) as [_ Ha].
  assert (Hlt : IZR (-1) < IZR (Int_part a)) by lra.
  apply lt_IZR in Hlt. lia.
Qed.

Lemma trunc_mono (a b : R) : a <= b -> (core.trunc a <= core.trunc b)%Z.
Proof.
  intros H. unfold core.trunc.
  destruct (Rle_dec 0 a), (Rle_dec 0 b); try lra.
  - apply Int_part_mono; assumption.
  - assert (0 <= Int_part (- a))%Z by (apply Int_part_nonneg; lra).
    assert (0 <= Int_part b)%Z by (apply Int_part_nonneg; lra).
    lia.
  - assert (Int_part (- b) <= Int_part (- a))%Z by (apply Int_part_mono; lra).
    lia.
Qed.

Lemma Int_part_of_IZR (z : Z) : Int_part (IZR z) = z.
Proof. symmetry. apply Int_part_spec. lra. Qed.

(** An integer value is converted to itself. *)
Lemma trunc_IZR (z : Z) : core.trunc (IZR z) = z.
Proof.
  unfold core.trunc. destruct (Rle_dec 0 (IZR z)).
  - apply Int_part_of_IZR.
  - rewrite <- opp_IZR, Int_part_of_IZR. lia.
Qed.

Lemma astype_int32_IZR (z : Z) :
  (- 2 ^ 31 <= z < 2 ^ 31)%Z -> core.astype_int32 (IZR z) = Some z.
Proof.
  intros [Hlo Hhi]. unfold core.astype_int32. rewrite trunc_IZR.
  apply Z.leb_le in Hlo. apply Z.ltb_lt in Hhi. rewrite Hlo, Hhi.
  reflexivity.
Qed.

Lemma astype_int32_between (lo hi v : R) (a b : Z) :
  core.astype_int32 lo = Some a ->
  core.astype_int32 hi = Some b ->
  lo <= v <= hi ->
  core.astype_int32 v = Some (core.trunc v)
  /\ (a <= core.trunc v <= b)%Z.
Proof.
  unfold core.astype_int32. intros Ha Hb [Hlo Hhi].
  apply trunc_mono in Hlo, Hhi.
  destruct ((- 2 ^ 31 <=? core.trunc lo) && (core.trunc lo <? 2 ^ 31))%Z
    eqn:Ea; [| discriminate].
  destruct ((- 2 ^ 31 <=? core.trunc hi) && (core.trunc hi <? 2 ^ 31))%Z
    eqn:Eb; [| discriminate].
  injection Ha as <-. injection Hb as <-.
  apply andb_true_iff in Ea, Eb. destruct Ea as [Ea1 Ea2], Eb as [Eb1 Eb2].
  apply Z.leb_le in Ea1, Eb1. apply Z.ltb_lt in Ea2, Eb2.
  replace ((- 2 ^ 31 <=? core.trunc v) && (core.trunc v <? 2 ^ 31))%Z
    with true.
  - split; [reflexivity | lia].
  - symmetry. apply andb_true_iff. split;
      [apply Z.leb_le | apply Z.ltb_lt]; lia.
Qed.

(** The value before the conversion, for an increasing schedule. *)
Lemma ramp_value (x y0 yend x0 xend : R) :
  x0 < xend -> y0 <= yend ->
  let y := (x - x0) * (yend - y0) / (xend - x0) + y0 in
  y0 <= Rmax y0 (Rmin yend y) <= yend
  /\ (x <= x0 -> Rmax y0 (Rmin yend y) = y0)
  /\ (xend <= x -> Rmax y0 (Rmin yend y) = yend).
Proof.
  intros Hx Hy y.
  assert (Hd : 0 < xend - x0) by lra.
  assert (Hs : 0 <= (yend - y0) / (xend - x0)).
  { apply Rmult_le_pos; [lra | left; apply Rinv_0_lt_compat; exact Hd]. }
  assert (Hy_eq : y = (x - x0) * ((yend - y0) / (xend - x0)) + y0).
  { unfold y, Rdiv. ring. }
  assert (Hend : (xend - x0) * ((yend - y0) / (xend - x0)) = yend - y0).
  { field. lra. }
  split; [| split].
  - unfold Rmax, Rmin.
    destruct (Rle_dec yend y), (Rle_dec y0 _); lra.
  - intros Hle.
    assert (y <= y0) by (rewrite Hy_eq; nra).
    unfold Rmax, Rmin. destruct (Rle_dec yend y), (Rle_dec y0 _); lra.
  - intros Hle.
    assert (yend <= y) by (rewrite Hy_eq; nra).
    unfold Rmax, Rmin. destruct (Rle_dec yend y), (Rle_dec y0 _); lra.
Qed.



(** X4. For an increasing schedule the result never decreases with [x]. *)
Theorem threshold_linear_monotone (x x' y0 yend x0 xend : R) (a b : Z) :
  x0 < xend -> y0 <= yend ->
  core.astype_int32 y0 = Some a ->
  core.astype_int32 yend = Some b ->
  x <= x' ->
  exists z z',
    core.threshold_linear x y0 yend x0 xend = Some z
    /\ core.threshold_linear x' y0 yend x0 xend = Some z'
    /\ (z <= z')%Z.
Proof.
  intros Hx Hy Ha Hb Hxx. unfold core.threshold_linear.
  destruct (Req_dec_T (xend - x0) 0) as [E | _]; [lra |].
  destruct (ramp_value x y0 yend x0 xend Hx Hy) as [Hin _].
  destruct (ramp_value x' y0 yend x0 xend Hx Hy) as [Hin' _].
  cbv zeta in *.
  set (y := (x - x0) * (yend - y0) / (xend - x0) + y0) in *.
  set (y' := (x' - x0) * (yend - y0) / (xend - x0) + y0) in *.
  destruct (astype_int32_between y0 yend _ a b Ha Hb Hin) as [-> _].
  destruct (astype_int32_between y0 yend _ a b Ha Hb Hin') as [-> _].
  eexists. eexists. repeat split. apply trunc_mono.
  assert (Hs : 0 <= (yend - y0) / (xend - x0)).
  { apply Rmult_le_pos; [lra | left; apply Rinv_0_lt_compat; lra]. }
  assert (Hyy : y <= y').
  { unfold y, y', Rdiv. rewrite !Rmult_assoc.
    apply Rplus_le_compat_r. apply Rmult_le_compat_r; [exact Hs | lra]. }
  unfold Rmax, Rmin.
  destruct (Rle_dec yend y), (Rle_dec yend y');
    repeat match goal with |- context [Rle_dec ?p ?q] =>
             destruct (Rle_dec p q) end; lra.
Qed.

Lemma threshold_linear_monotone_witness :
  exists z z',
    core.threshold_linear 2 0 10 0 10 = Some z
    /\ core.threshold_linear 7 0 10 0 10 = Some z'
    /\ (z <= z')%Z.
Proof.
  apply (threshold_linear_monotone 2 7 0 10 0 10 0 10); try lra.
  - apply (astype_int32_IZR 0). lia.
  - apply (astype_int32_IZR 10). lia.
Defined.

(** X5. For a decreasing schedule ([yend < y0]) the clamp
    [maximum(y0, minimum(yend, y))] is [y0] at every [x]: the result is the
    truncated [y0] throughout. *)
Theorem threshold_linear_decreasing_is_constant
    (x y0 yend x0 xend : R) (a : Z) :
  x0 <> xend -> yend < y0 ->
  core.astype_int32 y0 = Some a ->
  core.threshold_linear x y0 yend x0 xend = Some a.
Proof.
  intros Hx Hy Ha. unfold core.threshold_linear.
  destruct (Req_dec_T (xend - x0) 0) as [E | _]; [lra |].
  cbv zeta.
  replace (Rmax y0 (Rmin yend _)) with y0; [exact Ha |].
  unfold Rmax, Rmin.
  repeat match goal with |- context [Rle_dec ?p ?q] =>
           destruct (Rle_dec p q) end; lra.
Qed.

Lemma threshold_linear_decreasing_is_constant_witness :
  core.threshold_linear 7 10 0 0 10 = Some 10%Z.
Proof.
  apply (threshold_linear_decreasing_is_constant 7 10 0 0 10 10); try lra.
  apply (astype_int32_IZR 10). lia.
Defined.

End ThresholdLinear.

(** ** sin_squashing_fn *)

Section SinSquashing.

Open Scope R_scope.

Lemma sin_3a (x : R) : sin (3 * x) = 3 * sin x - 4 * (sin x * sin x * sin x).
Proof.
  replace (3 * x) with (2 * x + x) by ring.
  rewrite sin_plus, sin_2a, cos_2a_sin.
  pose proof (sin2_cos2 x) as H. unfold Rsqr in H.
  replace (2 * sin x * cos x * cos x)
    with (2 * sin x * (cos x * cos x)) by ring.
  replace (cos x * cos x) with (1 - sin x * sin x) by lra.
  ring.
Qed.

Lemma squash_entry (x : R) :
  0.125 * (sin x * 9 + (sin (3 * x) * 1 + 0))
  = (3 * sin x - sin x * sin x * sin x) / 2.
Proof. rewrite sin_3a. lra. Qed.

(** X6. Every entry of [sin_squashing_fn(x)] lies between -1 and 1, and
    the output has as many entries as the input. *)
Theorem sin_squashing_fn_bounded (x : list R) :
  length (core.sin_squashing_fn x) = length x
  /\ Forall (fun y => -1 <= y <= 1) (core.sin_squashing_fn x).
Proof.
  unfold core.sin_squashing_fn. split; [apply length_map |].
  apply Forall_forall. intros y Hy. apply in_map_iff in Hy.
  destruct Hy as [xi [<- _]]. rewrite squash_entry.
  pose proof (SIN_bound xi) as [Hlo Hhi].
  set (s := sin xi) in *.
  assert (H1 : 0 <= (1 - s) * (1 - s) * (s + 2)).
  { apply Rmult_le_pos; [apply Rle_0_sqr with (r := 1 - s) | lra]. }
  assert (H2 : 0 <= (s + 1) * (s + 1) * (2 - s)).
  { apply Rmult_le_pos; [apply Rle_0_sqr with (r := s + 1) | lra]. }
  split; lra.
Qed.

(** X7. [sin_squashing_fn] is odd and has period [2 PI]: negating every
    entry of the input negates every entry of the output, and adding
    [2 PI] to every entry changes nothing. *)
Theorem sin_squashing_fn_odd_periodic (x : list R) :
  core.sin_squashing_fn (map Ropp x) = map Ropp (core.sin_squashing_fn x)
  /\ core.sin_squashing_fn (map (fun xi => xi + 2 * PI) x)
     = core.sin_squashing_fn x.
Proof.
  unfold core.sin_squashing_fn. rewrite !map_map. split.
  - apply map_ext. intros xi.
    replace (3 * - xi) with (- (3 * xi)) by ring.
    rewrite !sin_neg. ring.
  - apply map_ext. intros xi.
    replace (3 * (xi + 2 * PI)) with (3 * xi + 2 * INR 3 * PI)
      by (simpl; ring).
    rewrite (sin_period (3 * xi) 3).
    replace (sin (xi + 2 * PI)) with (sin xi)
      by (rewrite sin_plus, sin_2PI, cos_2PI; ring).
    reflexivity.
Qed.

End SinSquashing.

(** ** tile *)

Section Tile.

Open Scope R_scope.

Lemma rechunk_concat (d : nat) (L : list (list R)) :
  Forall (fun row => length row = d) L ->
  torch.rechunk (length L) d (concat L) = L.
Proof.
  induction 1 as [|row L Hrow HL IH]; [reflexivity |].
  simpl. rewrite <- Hrow at 1 3.
  rewrite firstn_app, Nat.sub_diag, firstn_all, firstn_0, app_nil_r.
  rewrite skipn_app, Nat.sub_diag, skipn_all, skipn_O.
  simpl. rewrite IH. reflexivity.
Qed.

Lemma concat_flat_map_repeat (n : nat) (M : list (list R)) :
  concat (flat_map (fun row => repeat row n) M)
  = concat (map (fun row => concat (repeat row n)) M).
Proof.
  induction M as [|row M IH]; [reflexivity |].
  simpl. rewrite concat_app, IH. reflexivity.
Qed.

Lemma length_flat_map_repeat (n : nat) (M : list (list R)) :
  length (flat_map (fun row => repeat row n) M) = (n * length M)%nat.
Proof.
  induction M as [|row M IH]; simpl; [lia |].
  rewrite length_app, repeat_length, IH. lia.
Qed.

Lemma length_concat_rows (d : nat) (L : list (list R)) :
  Forall (fun row => length row = d) L ->
  length (concat L) = (length L * d)%nat.
Proof.
  induction 1 as [|row L Hrow HL IH]; [reflexivity |].
  simpl. rewrite length_app, IH, Hrow. reflexivity.
Qed.

Lemma tile_data (n : nat) (M : list (list R)) :
  concat (concat (torch.repeat_last n (torch.transpose01 [M])))
  = concat (flat_map (fun row => repeat row n) M).
Proof.
  rewrite concat_flat_map_repeat. unfold torch.repeat_last. simpl.
  rewrite map_map. simpl. f_equal.
  induction M as [|row M IH]; [reflexivity |].
  simpl. rewrite IH. reflexivity.
Qed.

(** X8. On a [B x D] tensor with [n * B > 0], [tile(tensor, n)] returns the
    [n * B] rows in which every row of the tensor is repeated [n] times in
    place: row [0] [n] times, then row [1] [n] times, and so on. *)
Theorem tile_repeats_each_row (d n : nat) (M : list (list R)) :
  Forall (fun row => length row = d) M ->
  (n * length M)%nat <> 0%nat ->
  core.tile M n = py.Ok (flat_map (fun row => repeat row n) M).
Proof.
  intros HM Hpos. unfold core.tile, torch.view_rows.
  destruct (Nat.eqb_spec (n * length M) 0) as [E | _]; [contradiction |].
  rewrite tile_data.
  set (L := flat_map (fun row => repeat row n) M).
  assert (HL : Forall (fun row => length row = d) L).
  { apply Forall_forall. intros row Hin. apply in_flat_map in Hin.
    destruct Hin as [r [Hr Hrep]]. apply repeat_spec in Hrep. subst row.
    rewrite Forall_forall in HM. apply HM. exact Hr. }
  assert (Hlen : length L = (n * length M)%nat)
    by apply length_flat_map_repeat.
  rewrite (length_concat_rows d L HL), Hlen, (Nat.mul_comm (n * length M) d).
  rewrite Nat.Div0.mod_mul, Nat.eqb_refl, Nat.div_mul by exact Hpos.
  rewrite <- Hlen, rechunk_concat by exact HL. reflexivity.
Qed.

Lemma tile_repeats_each_row_witness :
  core.tile [[1; 2]; [3; 4]] 2
  = py.Ok (flat_map (fun row => repeat row 2) [[1; 2]; [3; 4]]).
Proof.
  apply (tile_repeats_each_row 2 2 [[1; 2]; [3; 4]]).
  - repeat constructor.
  - discriminate.
Defined.

(** X9. With [n = 0] or a tensor without rows, the final [view(0, -1)]
    cannot infer the free dimension and [tile] raises. *)
Theorem tile_empty_raises (n : nat) (M : list (list R)) :
  (n * length M)%nat = 0%nat ->
  core.tile M n = py.Raise py.RuntimeError.
Proof.
  intros E. unfold core.tile, torch.view_rows. rewrite E. reflexivity.
Qed.

Lemma tile_empty_raises_witness :
  core.tile [[1; 2]; [3; 4]] 0 = py.Raise py.RuntimeError.
Proof.
  apply (tile_empty_raises 0 [[1; 2]; [3; 4]]). reflexivity.
Defined.

End Tile.

(** ** load_csv *)

Section LoadCsv.

Variable int : string -> py.result Z.

Lemma split_nonempty (sep : ascii) (s : string) : core.split sep s <> [].
Proof.
  destruct s as [|c s]; simpl; [discriminate |].
  destruct (Ascii.eqb c sep); [discriminate |].
  destruct (core.split sep s); discriminate.
Qed.

Lemma split_length (s : string) :
  length (core.split "," s) = S (reference.commas s).
Proof.
  unfold reference.commas. induction s as [|c s IH]; [reflexivity |].
  simpl. destruct (Ascii.eqb_spec c ","%char) as [-> | Hne].
  - simpl. rewrite IH. destruct (ascii_dec "," ","); congruence.
  - destruct (ascii_dec c ","); [contradiction |].
    destruct (core.split "," s) eqn:E; [discriminate |].
    simpl in *. exact IH.
Qed.

Lemma split_append (d rest : string) :
  core.contains "," d = false ->
  core.split "," (d ++ String "," rest) = d :: core.split "," rest.
Proof.
  induction d as [|c d IH]; intros H; simpl in *; [reflexivity |].
  apply orb_false_iff in H. destruct H as [Hc Hd].
  rewrite Hc, (IH Hd). reflexivity.
Qed.

Lemma split_single (d : string) :
  core.contains "," d = false -> core.split "," d = [d].
Proof.
  induction d as [|c d IH]; intros H; simpl in *; [reflexivity |].
  apply orb_false_iff in H. destruct H as [Hc Hd].
  rewrite Hc, (IH Hd). reflexivity.
Qed.

Lemma split_join (fields : list string) :
  fields <> [] ->
  Forall (fun d => core.contains "," d = false) fields ->
  core.split "," (core.join_comma fields) = fields.
Proof.
  intros Hne H. induction H as [|d fields Hd Hrest IH]; [congruence |].
  destruct fields as [|d' fields].
  - simpl. apply split_single. exact Hd.
  - change (core.join_comma (d :: d' :: fields))
      with (d ++ String "," (core.join_comma (d' :: fields)))%string.
    rewrite split_append by exact Hd. rewrite IH by discriminate.
    reflexivity.
Qed.

Lemma int_all_length (fields : list string) (l : list Z) :
  core.int_all int fields = py.Ok l -> length l = length fields.
Proof.
  revert l; induction fields as [|d fields IH]; intros l; simpl.
  - intros [= <-]. reflexivity.
  - destruct (int d) as [z|e]; simpl; [| discriminate].
    destruct (core.int_all int fields) as [zs|e]; simpl; [| discriminate].
    intros [= <-]. simpl. rewrite (IH zs eq_refl). reflexivity.
Qed.

Lemma int_all_raises (fields : list string) :
  (exists e, core.int_all int fields = py.Raise e)
  <-> (exists d e, In d fields /\ int d = py.Raise e).
Proof.
  induction fields as [|d fields IH]; simpl.
  - split; [intros [e H]; discriminate | intros [d [e [[] _]]]].
  - destruct (int d) as [z|e] eqn:Hd; simpl.
    + destruct (core.int_all int fields) as [zs|e] eqn:Hall; simpl.
      * split; [intros [e H]; discriminate |].
        intros [d' [e [[<- | Hin] He]]]; [congruence |].
        destruct IH as [_ IH]. destruct IH as [e' He']; [| discriminate].
        exists d', e. split; assumption.
      * split; [| intros _; exists e; reflexivity].
        intros _. destruct IH as [IH _].
        destruct IH as [d' [e' [Hin He']]]; [exists e; reflexivity |].
        exists d', e'. split; [right |]; assumption.
    + split; [| intros _; exists e; reflexivity].
      intros _. exists d, e. split; [left; reflexivity | exact Hd].
Qed.

(** X10. A list that [load_csv] returns has one integer per
    comma-separated field of the string, that is one more than the string
    has commas: in particular it is never empty. *)
Theorem load_csv_field_count (s : string) (l : list Z) :
  core.load_csv int s = py.Ok (Some l) ->
  length l = S (reference.commas s).
Proof.
  unfold core.load_csv.
  destruct (core.int_all int (core.split "," s)) as [zs|e] eqn:E.
  - intros [= <-]. rewrite (int_all_length _ _ E). apply split_length.
  - destruct (py.is_Exception e); discriminate.
Qed.

(** X11. When [int] raises nothing outside [Exception], [load_csv] returns
    [None] exactly when the conversion of some field fails, however many
    fields before it were converted: there is no partial list. *)
Theorem load_csv_none_iff_field_fails (s : string) :
  (forall d e, int d = py.Raise e -> py.is_Exception e = true) ->
  (core.load_csv int s = py.Ok None
   <-> exists d e, In d (core.split "," s) /\ int d = py.Raise e)
  /\ (forall e, core.load_csv int s <> py.Raise e).
Proof.
  intros Hexc. unfold core.load_csv.
  pose proof (int_all_raises (core.split "," s)) as Hiff.
  destruct (core.int_all int (core.split "," s)) as [zs|e] eqn:E.
  - split; [| discriminate]. split; [discriminate |].
    intros H. apply Hiff in H. destruct H as [e H]. discriminate.
  - assert (Hcatch : py.is_Exception e = true).
    { destruct Hiff as [Hiff _].
      destruct Hiff as [d [e' [Hin He']]]; [exists e; reflexivity |].
      clear Hin. revert e E.
      induction (core.split "," s) as [|d0 fields IH]; intros e E;
        simpl in E; [discriminate |].
      destruct (int d0) as [z|e0] eqn:Hd0; simpl in E.
      - destruct (core.int_all int fields) as [zs|e1] eqn:Hall; simpl in E;
          [discriminate |].
        injection E as <-. apply (IH e1). reflexivity.
      - injection E as <-. exact (Hexc d0 e0 Hd0). }
    rewrite Hcatch. split; [| discriminate].
    split; [intros _; apply Hiff; exists e; reflexivity | reflexivity].
Qed.

Lemma int_all_map (str : Z -> string) (l : list Z) :
  (forall z, In z l -> int (str z) = py.Ok z) ->
  core.int_all int (map str l) = py.Ok l.
Proof.
  induction l as [|z l IH]; intros H; simpl; [reflexivity |].
  rewrite (H z (or_introl eq_refl)). simpl.
  rewrite IH by (intros z' Hz'; apply H; right; exact Hz'). reflexivity.
Qed.

(** X12. Round trip: for a non-empty list of integers whose renderings
    contain no comma and are read back by [int], [load_csv] of the
    comma-joined renderings is that list. *)
Theorem load_csv_join_round_trip (str : Z -> string) (l : list Z) :
  l <> [] ->
  (forall z, In z l -> int (str z) = py.Ok z) ->
  (forall z, In z l -> core.contains "," (str z) = false) ->
  core.load_csv int (core.join_comma (map str l)) = py.Ok (Some l).
Proof.
  intros Hne Hint Hcomma. unfold core.load_csv.
  rewrite split_join.
  - rewrite (int_all_map str l Hint). reflexivity.
  - destruct l; [congruence | discriminate].
  - apply Forall_forall. intros d Hd. apply in_map_iff in Hd.
    destruct Hd as [z [<- Hz]]. apply Hcomma. exact Hz.
Qed.

End LoadCsv.

Lemma load_csv_field_count_witness :
  length [1; 2; 3]%Z = S (reference.commas "1,2,3").
Proof.
  apply (load_csv_field_count inputs.int_digit "1,2,3" [1; 2; 3]%Z).
  reflexivity.
Defined.

Lemma load_csv_none_iff_field_fails_witness :
  (core.load_csv inputs.int_digit "1,,3" = py.Ok None
   <-> exists d e, In d (core.split "," "1,,3")
                   /\ inputs.int_digit d = py.Raise e)
  /\ (forall e, core.load_csv inputs.int_digit "1,,3" <> py.Raise e).
Proof.
  apply (load_csv_none_iff_field_fails inputs.int_digit "1,,3").
  intros d e. unfold inputs.int_digit.
  repeat match goal with
         | |- context [String.eqb ?a ?b] => destruct (String.eqb a b)
         end; try discriminate.
  intros [= <-]. reflexivity.
Defined.

Lemma load_csv_join_round_trip_witness :
  core.load_csv inputs.int_digit
    (core.join_comma (map inputs.str_digit [1; 2; 3]%Z))
  = py.Ok (Some [1; 2; 3]%Z).
Proof.
  apply (load_csv_join_round_trip inputs.int_digit inputs.str_digit
           [1; 2; 3]%Z).
  - discriminate.
  - intros z [<- | [<- | [<- | []]]]; reflexivity.
  - intros z [<- | [<- | [<- | []]]]; reflexivity.
Defined.

(** ** load_checkpoint, further *)

Section LoadCheckpointMore.

Variables (Params World : Type).
Variable torch_load : string -> World -> World * py.result Params.

(** X13. An exception outside [Exception] (a keyboard interrupt, an exit)
    raised while the dynamics file is read is not caught: it leaves
    [load_checkpoint] at once, with no warning and no further load
    attempted. *)
Theorem load_checkpoint_interrupt_propagates
    (s : string) (dyn pol : core.loader Params World)
    (exp : core.exp_loader World) (val : option (core.loader Params World))
    (w w' : World) (file : string) (e : py.exn) :
  core.os_path_join (core.PathStr s) "latest_dynamics.pth.tar" = py.Ok file ->
  torch_load file w = (w', py.Raise e) ->
  py.is_Exception e = false ->
  core.load_checkpoint Params World torch_load (core.PathStr s) dyn pol exp
    val (core.ck_init World w)
  = ({| core.world := w'; core.val_path := None; core.exp_path := None;
        core.calls := [core.CallJoin "latest_dynamics.pth.tar";
                       core.CallTorchLoad file] |},
     py.Raise e).
Proof.
  intros Hjoin Hload He.
  unfold core.load_checkpoint, core.join, core.extern, core.warn, core.log,
    pyst.try_except_Exception, pyst.bind, core.ck_init.
  rewrite Hjoin. cbn [core.world core.calls core.val_path core.exp_path].
  rewrite Hload, He. reflexivity.
Qed.

End LoadCheckpointMore.

Lemma load_checkpoint_interrupt_propagates_witness :
  core.load_checkpoint unit unit inputs.load_interrupted (core.PathStr "ckpt")
    inputs.load_accepts inputs.load_accepts inputs.load_missing None
    (core.ck_init unit tt)
  = ({| core.world := tt; core.val_path := None; core.exp_path := None;
        core.calls := [core.CallJoin "latest_dynamics.pth.tar";
                       core.CallTorchLoad "ckpt/latest_dynamics.pth.tar"] |},
     py.Raise py.KeyboardInterrupt).
Proof.
  apply (load_checkpoint_interrupt_propagates unit unit
           inputs.load_interrupted "ckpt" inputs.load_accepts
           inputs.load_accepts inputs.load_missing None tt tt
           "ckpt/latest_dynamics.pth.tar" py.KeyboardInterrupt);
    reflexivity.
Defined.

Lemma load_checkpoint_str_path_returns_witness :
  let out := core.load_checkpoint unit unit inputs.load_missing
               (core.PathStr "ckpt") inputs.load_accepts inputs.load_accepts
               inputs.load_missing None (core.ck_init unit tt) in
  snd out = py.Ok tt
  /\ In (core.CallJoin "latest_dynamics.pth.tar") (core.calls unit (fst out))
  /\ In (core.CallJoin "latest_policy.pth.tar") (core.calls unit (fst out))
  /\ In (core.CallJoin "experience.pth.tar") (core.calls unit (fst out))
  /\ ((None : option (core.loader unit unit)) <> None ->
      In (core.CallJoin "latest_critic.pth.tar")
         (core.calls unit (fst out))).
Proof.
  apply (load_checkpoint_str_path_returns unit unit inputs.load_missing
           "ckpt" inputs.load_accepts inputs.load_accepts
           inputs.load_missing None tt).
  - intros file w0 e [= <-]. reflexivity.
  - intros ps w0 e H. discriminate.
  - intros ps w0 e H. discriminate.
  - intros v ps w0 e H. discriminate.
  - intros file w0 e [= <-]. reflexivity.
Defined.

Section LoadCheckpointNoCritic.

Variables (Params World : Type).
Variable torch_load : string -> World -> World * py.result Params.

(** X14. Without a critic ([val=None]) nothing of the critic is touched,
    whatever the path and however the other loads end: the critic file name
    is never joined and no critic is loaded. *)
Theorem load_checkpoint_without_critic
    (path : core.path_arg) (dyn pol : core.loader Params World)
    (exp : core.exp_loader World) (w : World) :
  let out := core.load_checkpoint Params World torch_load path dyn pol exp
               None (core.ck_init World w) in
  ~ In (core.CallJoin "latest_critic.pth.tar") (core.calls World (fst out))
  /\ ~ In core.CallValLoad (core.calls World (fst out)).
Proof.
  cbv zeta.
  unfold core.load_checkpoint, core.join, core.extern, core.warn, core.log,
    core.set_val_path, core.set_exp_path, core.get_val_path, core.get_exp_path,
    pyst.try_except_Exception, pyst.bind, pyst.ret, core.ck_init.
  destruct path as [s | s |];
    [ destruct (os_path_join_str s "latest_dynamics.pth.tar") as [f1 ->];
      destruct (os_path_join_str s "latest_policy.pth.tar") as [f2 ->];
      destruct (os_path_join_str s "experience.pth.tar") as [f4 ->]
    | | ];
  repeat (cbn [core.world core.calls core.val_path core.exp_path
               core.os_path_join py.read_local py.is_Exception snd fst];
    match goal with
    | |- context [torch_load ?f ?w0] =>
        destruct (torch_load f w0) as [? [?|?]]
    | |- context [dyn ?a ?w0] => destruct (dyn a w0) as [? [[]|?]]
    | |- context [pol ?a ?w0] => destruct (pol a w0) as [? [[]|?]]
    | |- context [exp ?a ?w0] => destruct (exp a w0) as [? [[]|?]]
    | |- context [if py.is_Exception ?e then _ else _] =>
        destruct (py.is_Exception e)
    end);
  cbn [core.world core.calls core.val_path core.exp_path
       core.os_path_join py.read_local py.is_Exception snd fst];
  rewrite ?in_app_iff; simpl; split; intuition discriminate.
Qed.

End LoadCheckpointNoCritic.

(** ** tqdm_joblib, nested *)

Section TqdmJoblibNested.

Variable Rest : Type.
Variable installed_call : nat -> nat -> core.process Rest -> core.process Rest.

Lemma set_bar_other (bar b : nat) (t : core.tqdm) (p : core.process Rest) :
  b <> bar -> core.bars Rest (core.set_bar Rest bar t p) b = core.bars Rest p b.
Proof.
  intros H. unfold core.set_bar; simpl.
  apply Nat.eqb_neq in H. rewrite H. reflexivity.
Qed.

Lemma tqdm_close_keeps_closed (bar b : nat) (p : core.process Rest) :
  core.closed (core.bars Rest p b) = true ->
  core.closed (core.bars Rest (core.tqdm_close Rest bar p) b) = true.
Proof.
  intros H. unfold core.tqdm_close.
  destruct (Nat.eq_dec b bar) as [-> | Hne].
  - rewrite set_bar_same. reflexivity.
  - rewrite set_bar_other by exact Hne. exact H.
Qed.

(** X15. Two nested [with tqdm_joblib(...)] blocks, for the bars [a]
    (outer) and [b] (inner): on leaving both, the callback is the one found
    on entering the outer block and both bars are closed, whether the body
    returned or raised; inside, one batch completion updates [b], then [a],
    then calls the original class. *)
Theorem tqdm_joblib_nested {A : Type} (a b : nat)
    (body : nat -> pyst.M (core.process Rest) A) (p : core.process Rest) :
  let old := core.BatchCompletionCallBack Rest p in
  let inner := core.TqdmBatchCompletionCallback b
                 (core.TqdmBatchCompletionCallback a old) in
  let exit :=
    core.tqdm_joblib Rest a (fun _ => core.tqdm_joblib Rest b body) p in
  core.BatchCompletionCallBack Rest (fst exit) = old
  /\ core.closed (core.bars Rest (fst exit) a) = true
  /\ core.closed (core.bars Rest (fst exit) b) = true
  /\ snd exit = snd (body b (core.set_callback Rest inner p))
  /\ (forall k q,
        core.call_callback Rest installed_call inner k q
        = core.call_callback Rest installed_call old k
            (core.tqdm_update Rest a k (core.tqdm_update Rest b k q))).
Proof.
  cbv zeta. unfold core.tqdm_joblib, pyst.try_finally.
  cbn [core.BatchCompletionCallBack core.set_callback core.bars core.rest].
  destruct (body b _) as [q r] eqn:Hbody. cbn [fst snd].
  repeat split.
  - unfold core.tqdm_close. rewrite set_bar_same. reflexivity.
  - apply tqdm_close_keeps_closed.
    cbn [core.set_callback core.bars].
    unfold core.tqdm_close. rewrite set_bar_same. reflexivity.
Qed.

End TqdmJoblibNested.

(** ** batch_jacobian, further *)

Section BatchJacobianMore.

Open Scope R_scope.

Variable f_row : list R -> list R.
Variable jac : list R -> list (list R).

Lemma same_shape_eye_iff (y : list R) (n s m : nat) :
  core.same_shape (map (torch.eye_row n) (seq s n)) (repeat y m) = true
  <-> m = n /\ (n = 0%nat \/ length y = n).
Proof.
  split.
  - intros H.
    assert (Hm : m = n).
    { destruct (Nat.eq_dec m n) as [E | Hne]; [exact E |].
      rewrite same_shape_rows in H; [discriminate |].
      rewrite length_map, length_seq, repeat_length. congruence. }
    split; [exact Hm |]. subst m.
    destruct n as [|n]; [left; reflexivity | right].
    change (seq s (S n)) with (s :: seq (S s) n) in H.
    cbn [map repeat core.same_shape] in H.
    apply andb_true_iff in H. destruct H as [H _].
    apply Nat.eqb_eq in H. unfold torch.eye_row in H.
    rewrite length_map, length_seq in H. congruence.
  - intros [-> [-> | Hy]]; [reflexivity |].
    apply same_shape_eye. exact Hy.
Qed.

(** X16. [batch_jacobian(f, x, out_dims)] returns only when [out_dims]
    (the number of outputs of [f] when omitted) equals the number of inputs
    and, for a non-empty [x], [f] has as many outputs as inputs; in every
    other case it raises [RuntimeError]. *)
Theorem batch_jacobian_returns_iff (x : list R) (out_dims : option nat) :
  let d := match out_dims with
           | None => length (f_row x)
           | Some d => d
           end in
  ((exists J, core.batch_jacobian f_row jac x out_dims = py.Ok J)
   <-> d = length x /\ (length x = 0%nat \/ length (f_row x) = length x))
  /\ ((exists J, core.batch_jacobian f_row jac x out_dims = py.Ok J)
      \/ core.batch_jacobian f_row jac x out_dims
         = py.Raise py.RuntimeError).
Proof.
  cbv zeta. unfold core.batch_jacobian, core.autograd_grad, core.f, torch.eye.
  rewrite map_repeat.
  set (d := match out_dims with
            | Some d => d
            | None => length (f_row x)
            end).
  pose proof (same_shape_eye_iff (f_row x) (length x) 0 d) as Hiff.
  destruct (core.same_shape _ _).
  - split.
    + split; [intros _; apply Hiff; reflexivity | intros _; eexists; reflexivity].
    + left. eexists. reflexivity.
  - split.
    + split; [intros [J H]; discriminate |].
      intros H. apply Hiff in H. discriminate.
    + right. reflexivity.
Qed.

End BatchJacobianMore.


(** ** train_model, the batches *)

Section TrainModelBatches.

Open Scope R_scope.

Variables (Sample Model Opt : Type).
Variable shuffle : nat -> list Sample -> list Sample.
Variable log_prob_mean : bool -> Model -> list Sample -> R.
Variable regularization_loss : Model -> R.
Variable opt_step : Opt -> (Model -> R) -> Model -> Opt * Model.
Variable Adam : Model -> Opt.

Variable data : list Sample.
Variable batch_size : nat.
Variable resample : bool.
Hypothesis data_nonempty : data <> [].
Hypothesis batch_size_positive : batch_size <> 0%nat.
Hypothesis shuffle_permutes : forall k, Permutation (shuffle k data) data.

Abbreviation the_loader :=
  ({| core.dataset := data; core.batch_size := batch_size |}
   : core.DataLoader Sample).

Abbreviation first_batch :=
  (fun k : nat => firstn batch_size (shuffle k data)).

Lemma next_batch_first_batch (st : core.train_state Sample Model Opt) :
  core.next_batch Sample Model Opt shuffle the_loader st
  = py.Ok (first_batch (core.iters_made _ _ _ st),
           {| core.model := core.model _ _ _ st;
              core.training := core.training _ _ _ st;
              core.opt := core.opt _ _ _ st;
              core.iters_made := S (core.iters_made _ _ _ st);
              core.data_iter := core.data_iter _ _ _ st;
              core.steps := core.steps _ _ _ st |}).
Proof.
  rewrite next_batch_fresh_iterator. unfold core.iter. simpl.
  set (k := core.iters_made _ _ _ st).
  assert (Hne : shuffle k data <> []).
  { intros E. pose proof (shuffle_permutes k) as Hp. rewrite E in Hp.
    apply Permutation_nil in Hp. congruence. }
  destruct (chunks_first Sample batch_size _ Hne) as [rest ->].
  reflexivity.
Qed.

Lemma train_loop_batches (n_iters : nat)
    (st : core.train_state Sample Model Opt) :
  exists st',
    core.train_loop Sample Model Opt log_prob_mean regularization_loss
      opt_step (core.next_batch Sample Model Opt shuffle) the_loader
      resample n_iters st = py.Ok st'
    /\ core.batches_drawn _ _ _ st'
       = core.batches_drawn _ _ _ st
         ++ map first_batch (seq (core.iters_made _ _ _ st) n_iters)
    /\ core.iters_made _ _ _ st' = (core.iters_made _ _ _ st + n_iters)%nat
    /\ core.data_iter _ _ _ st' = core.data_iter _ _ _ st.
Proof.
  revert st; induction n_iters as [|n IH]; intros st.
  - exists st. simpl. rewrite app_nil_r, Nat.add_0_r. repeat split.
  - cbn [core.train_loop]. unfold core.train_iteration at 1.
    rewrite next_batch_first_batch. cbv beta iota delta [py.bind].
    match goal with
    | |- context [core.train_loop _ _ _ _ _ _ _ _ _ n ?s] =>
        destruct (IH s) as [st' [Hrun [Hb [Hk Hd]]]]
    end.
    exists st'. rewrite Hrun. split; [reflexivity |].
    unfold core.batches_drawn in *. cbn in Hb, Hk, Hd.
    rewrite Hb, Hk, Hd, map_app, <- app_assoc. simpl.
    repeat split. lia.
Qed.

(** X17. Every optimizer iteration of [train_model] trains on the first
    mini-batch of an iterator made for that iteration: the batch of
    iteration [i] is the first [batch_size] rows of the order drawn for
    iterator [i + 1], so it has [min(batch_size, len(data))] rows;
    [n_iters + 1] iterators are made in all and the one made before the loop
    is never advanced. *)
Theorem train_model_first_batches (m : Model) (n_iters : nat)
    (opt_arg : option Opt) :
  exists st,
    core.train_model Sample Model Opt shuffle log_prob_mean
      regularization_loss opt_step Adam m data n_iters opt_arg resample
      batch_size = py.Ok st
    /\ core.batches_drawn _ _ _ st
       = map (fun k => firstn batch_size (shuffle k data)) (seq 1 n_iters)
    /\ Forall (fun b => length b = Nat.min batch_size (length data))
         (core.batches_drawn _ _ _ st)
    /\ core.iters_made _ _ _ st = S n_iters
    /\ core.data_iter _ _ _ st = core.iter Sample shuffle the_loader 0.
Proof.
  unfold core.train_model, core.train_model_with, core.make_DataLoader.
  destruct (Nat.eqb_spec batch_size 0) as [E | _]; [congruence |].
  cbv beta iota delta [py.bind].
  match goal with
  | |- context [core.train_loop _ _ _ _ _ _ _ _ _ n_iters ?s] =>
      destruct (train_loop_batches n_iters s) as [st' [Hrun [Hb [Hk Hd]]]]
  end.
  rewrite Hrun. eexists. split; [reflexivity |].
  unfold core.batches_drawn in *. cbn in Hb, Hk, Hd |- *.
  rewrite Hb. repeat split; try assumption.
  apply Forall_forall. intros b Hin. apply in_map_iff in Hin.
  destruct Hin as [k [<- _]].
  rewrite length_firstn, (Permutation_length (shuffle_permutes k)).
  reflexivity.
Qed.

End TrainModelBatches.

Lemma train_model_first_batches_witness :
  exists st,
    core.train_model nat unit unit inputs.same_order inputs.no_log_prob
      inputs.no_reg inputs.no_step inputs.no_Adam tt [1; 2; 3] 2 None true 2
    = py.Ok st
    /\ core.batches_drawn _ _ _ st = [[1; 2]; [1; 2]]
    /\ core.iters_made _ _ _ st = 3.
Proof.
  destruct (train_model_first_batches nat unit unit inputs.same_order
              inputs.no_log_prob inputs.no_reg inputs.no_step inputs.no_Adam
              [1; 2; 3] 2 true
              ltac:(discriminate) ltac:(discriminate)
              (fun k => Permutation_refl [1; 2; 3])
              tt 2 None)
    as [st [Hrun [Hb [_ [Hk _]]]]].
  exists st. repeat split; assumption.
Defined.

(** ** CartpoleReward.forward, further *)

Section RewardMore.

Open Scope R_scope.

Lemma forward_encoded_state_witness :
  env.forward (env.CartpoleReward_init (Some 0.5) None None None)
    [1; 0; 0; sin 2; cos 2] [0]
  = env.forward (env.CartpoleReward_init (Some 0.5) None None None)
      [1; 0; 2; 0] [0].
Proof.
  apply (forward_encoded_state
           (env.CartpoleReward_init (Some 0.5) None None None)
           [0] 1 0 2 0 0 0 PI 0).
  reflexivity.
Defined.

(** X19. The reward of a four-dimensional state does not depend on its
    velocity entries [x[1]] and [x[3]]. *)
Theorem forward_ignores_velocities (r : env.CartpoleReward) (u : list R)
    (x0 th v w v' w' : R) :
  env.forward r [x0; v; th; w] u = env.forward r [x0; v'; th; w'] u.
Proof.
  unfold env.forward.
  destruct (angles.to_complex (env.target r) 2) as [targeta|e];
    [|reflexivity].
  cbv beta iota delta [py.bind].
  destruct (env.tip_xy (env.pole_length r) targeta) as [tip|e];
    [|reflexivity].
  change (length [x0; v'; th; w']) with (length [x0; v; th; w]).
  destruct (negb (length [x0; v; th; w] =? length targeta)%nat);
    reflexivity.
Qed.

Lemma repeat_0_opp (k : nat) : repeat 0 k = map Ropp (repeat 0 k).
Proof.
  induction k as [|k IHk]; simpl; [reflexivity |].
  rewrite <- IHk. f_equal. ring.
Qed.

Lemma mm_row_opp (v : list R) (M : list (list R)) (k : nat) :
  torch.mm_row (map Ropp v) M k = map Ropp (torch.mm_row v M k).
Proof.
  revert M; induction v as [|a v IH]; intros M; simpl.
  - apply repeat_0_opp.
  - destruct M as [|row M].
    + apply repeat_0_opp.
    + rewrite IH. generalize (torch.mm_row v M k). clear.
      induction row as [|x row IHr]; intros [|y l]; simpl; try reflexivity.
      rewrite IHr. f_equal. ring.
Qed.

Lemma mul_opp_opp (a b : list R) :
  torch.mul (map Ropp a) (map Ropp b) = torch.mul a b.
Proof.
  unfold torch.mul. rewrite !length_map.
  destruct (length a =? length b)%nat.
  - f_equal. clear. revert b; induction a as [|x a IH]; intros [|y b];
      simpl; try reflexivity.
    rewrite IH. f_equal. ring.
  - destruct a as [|c [|c' a]]; simpl.
    + destruct b as [|d [|d' b]]; simpl; reflexivity.
    + f_equal. rewrite map_map. apply map_ext. intros; ring.
    + destruct b as [|d [|d' b]]; simpl; try reflexivity.
      rewrite map_map. f_equal. f_equal; [ring |]. f_equal; [ring |].
      apply map_ext. intros; ring.
Qed.

(** X20. The reward is even in the action: negating every entry of [u]
    leaves it unchanged, whatever the state and the weights. *)
Theorem forward_even_in_action (r : env.CartpoleReward) (x u : list R) :
  env.forward r x (map Ropp u) = env.forward r x u.
Proof.
  unfold env.forward.
  destruct (angles.to_complex (env.target r) 2) as [targeta|e];
    [|reflexivity].
  cbv beta iota delta [py.bind].
  destruct (env.tip_xy (env.pole_length r) targeta) as [tip|e];
    [|reflexivity].
  destruct (if negb (length x =? length targeta)%nat
            then angles.to_complex x 2 else py.Ok x) as [xa|e];
    [|reflexivity].
  destruct (env.tip_xy (env.pole_length r) xa) as [ptip|e]; [|reflexivity].
  destruct (torch.mm _ (env.Q r)) as [dQ|e]; [|reflexivity].
  destruct (torch.mul dQ _) as [dQd|e]; [|reflexivity].
  unfold torch.mm. rewrite length_map.
  destruct (length u =? length (env.R_ r))%nat; [|reflexivity].
  rewrite mm_row_opp, mul_opp_opp. reflexivity.
Qed.

(** X21. An action whose number of entries is not the number of rows of
    [R] is refused: for a four-dimensional state and target and a 2 x 2
    [Q], [forward] raises [RuntimeError]. *)
Theorem forward_action_shape_mismatch (r : env.CartpoleReward) (u : list R)
    (x0 x1 th x3 t0 t1 tth t3 : R) :
  env.target r = [t0; t1; tth; t3] ->
  reference.matrix 2 2 (env.Q r) ->
  length u <> length (env.R_ r) ->
  env.forward r [x0; x1; th; x3] u = py.Raise py.RuntimeError.
Proof.
  intros Ht HQ Hu. unfold env.forward. rewrite Ht. simpl py.bind.
  set (delta := reference.normalized_displacement (env.pole_length r)
                  (reference.pole_tip (env.pole_length r) x0 th)
                  (reference.pole_tip (env.pole_length r) t0 tth)).
  match goal with
  | |- context [torch.mm ?d (env.Q r)] => change d with delta
  end.
  pose proof (quadratic_term delta (env.Q r) HQ) as HqQ.
  destruct (torch.mm delta (env.Q r)) as [dQ|e]; simpl in HqQ;
    [|discriminate].
  simpl py.bind.
  destruct (torch.mul dQ delta) as [dQd|e]; simpl in HqQ; [|discriminate].
  simpl py.bind. unfold torch.mm.
  apply Nat.eqb_neq in Hu. rewrite Hu. reflexivity.
Qed.

Lemma forward_action_shape_mismatch_witness :
  env.forward (env.CartpoleReward_init (Some 0.5) None None None)
    [0; 0; 0; 0] [1; 2]
  = py.Raise py.RuntimeError.
Proof.
  apply (forward_action_shape_mismatch
           (env.CartpoleReward_init (Some 0.5) None None None)
           [1; 2] 0 0 0 0 0 0 PI 0).
  - reflexivity.
  - split; [reflexivity | repeat constructor].
  - discriminate.
Defined.

(** X22. For a four-dimensional target, a state with fewer than four
    entries is refused with [IndexError]. *)
Theorem forward_short_state_raises (r : env.CartpoleReward) (x u : list R)
    (t0 t1 tth t3 : R) :
  env.target r = [t0; t1; tth; t3] ->
  (length x < 4)%nat ->
  env.forward r x u = py.Raise py.IndexError.
Proof.
  intros Ht Hx. unfold env.forward. rewrite Ht.
  destruct x as [|a [|b [|c [|d x]]]]; try reflexivity.
  simpl in Hx. lia.
Qed.

Lemma forward_short_state_raises_witness :
  env.forward (env.CartpoleReward_init (Some 0.5) None None None)
    [0; 0; 0] [0]
  = py.Raise py.IndexError.
Proof.
  apply (forward_short_state_raises
           (env.CartpoleReward_init (Some 0.5) None None None)
           [0; 0; 0] [0] 0 0 PI 0).
  - reflexivity.
  - simpl. lia.
Defined.

(** X23. With the default weights and the cart at the position of the
    target, the reward depends on the angles only through their difference
    and not on the pole length:
    [exp(-(4 (1 - cos(theta - theta_target)) + 0.5e-4 u^2))], hence at least
    [exp(-(8 + 0.5e-4 u^2))]. *)
Theorem forward_at_target_position (l t0 t1 tth t3 x1 th x3 u0 : R) :
  l <> 0 ->
  exists v,
    env.forward (env.CartpoleReward_init (Some l) (Some [t0; t1; tth; t3])
                   None None)
      [t0; x1; th; x3] [u0] = py.Ok v
    /\ v = exp (- (4 * (1 - cos (th - tth)) + 0.5e-4 * u0²))
    /\ exp (- (8 + 0.5e-4 * u0²)) <= v.
Proof.
  intros Hl. eexists. split; [apply forward_default_weights |].
  assert (Hcost :
    0.5 * (16 * (((t0 + l * sin th) - (t0 + l * sin tth)) / (2 * l))²
           + 16 * (((- l * cos th) - (- l * cos tth)) / (2 * l))²
           + 1e-4 * u0²)
    = 4 * (1 - cos (th - tth)) + 0.5e-4 * u0²).
  { rewrite cos_minus.
    replace (((t0 + l * sin th) - (t0 + l * sin tth)) / (2 * l))
      with ((sin th - sin tth) / 2) by (field; exact Hl).
    replace (((- l * cos th) - (- l * cos tth)) / (2 * l))
      with ((cos tth - cos th) / 2) by (field; exact Hl).
    pose proof (sin2_cos2 th) as H1. pose proof (sin2_cos2 tth) as H2.
    unfold Rsqr in *. nra. }
  rewrite Hcost. split; [reflexivity |].
  pose proof (COS_bound (th - tth)) as [Hlo _].
  destruct (Rle_lt_or_eq_dec _ _ Hlo) as [Hlt | Heq].
  - left. apply exp_increasing. lra.
  - right. f_equal. lra.
Qed.

Lemma forward_at_target_position_witness :
  exists v,
    env.forward (env.CartpoleReward_init (Some (1 / 2)) (Some [0; 0; PI; 0])
                   None None)
      [0; 0; 0; 0] [0] = py.Ok v
    /\ v = exp (- (4 * (1 - cos (0 - PI)) + 0.5e-4 * 0²))
    /\ exp (- (8 + 0.5e-4 * 0²)) <= v.
Proof.
  apply (forward_at_target_position (1 / 2) 0 0 PI 0 0 0 0 0). lra.
Defined.

End RewardMore.

(** ** CartpoleReward2 *)

(** X24. [CartpoleReward2()] cannot be constructed: its [__init__] calls
    [super(CartpoleReward, self)] on an object that is no [CartpoleReward],
    which raises [TypeError] (the same call made from a [CartpoleReward]
    is accepted). *)
Theorem CartpoleReward2_init_raises :
  env.CartpoleReward2_init = py.Raise py.TypeError
  /\ env.super env.class_CartpoleReward env.class_CartpoleReward
     = py.Ok (Some env.nn_Module).
Proof. split; reflexivity. Qed.

(** ** Cartpole.render *)

Section Render.

Open Scope R_scope.

Lemma item_app {X : Type} (pre l : list X) (i : nat) :
  env.item (pre ++ l) (length pre + i) = env.item l i.
Proof.
  unfold env.item. rewrite nth_error_app2 by lia.
  replace (length pre + i - length pre)%nat with i by lia. reflexivity.
Qed.

Lemma set_item_app {X : Type} (pre l : list X) (a v : X) :
  env.set_item (pre ++ a :: l) (length pre) v = pre ++ v :: l.
Proof.
  induction pre as [|p pre IH]; simpl; [reflexivity |].
  rewrite IH. reflexivity.
Qed.

Lemma copy_next_app {X : Type} (pre l : list X) (a b : X) :
  env.copy_next (pre ++ a :: b :: l) (length pre) = py.Ok (pre ++ b :: b :: l).
Proof.
  unfold env.copy_next.
  rewrite <- (Nat.add_0_r (length pre)) at 1. rewrite item_app.
  rewrite item_app. simpl. rewrite set_item_app. reflexivity.
Qed.

Lemma copy_next_short {X : Type} (pre l : list X) :
  (length l <= 1)%nat ->
  env.copy_next (pre ++ l) (length pre) = py.Raise py.IndexError.
Proof.
  intros H. unfold env.copy_next.
  rewrite <- (Nat.add_0_r (length pre)) at 1. rewrite item_app.
  destruct l as [|a [|b l]]; simpl in *; try reflexivity; try lia.
  rewrite item_app. reflexivity.
Qed.

(** The shifting loop on lists long enough: every entry takes the value of
    its successor, the last one keeps its own. *)
Lemma shift_trails_ok (k : nat) :
  forall (pre1 l1 : list (R * R)) (pre2 l2 : list R),
    length pre1 = length pre2 ->
    length l1 = S k -> length l2 = S k ->
    env.shift_trails (seq (length pre1) k)
      {| env.carttrans := pre1 ++ l1; env.poletrans := pre2 ++ l2 |}
    = ({| env.carttrans := pre1 ++ tl l1 ++ skipn k l1;
          env.poletrans := pre2 ++ tl l2 ++ skipn k l2 |}, py.Ok tt).
Proof.
  induction k as [|k IH]; intros pre1 l1 pre2 l2 Hpre H1 H2.
  - destruct l1 as [|a1 [|? ?]], l2 as [|a2 [|? ?]]; try discriminate.
    reflexivity.
  - destruct l1 as [|a1 [|b1 l1]], l2 as [|a2 [|b2 l2]]; try discriminate.
    cbn [seq env.shift_trails env.carttrans env.poletrans].
    rewrite copy_next_app, Hpre, copy_next_app.
    replace (pre1 ++ b1 :: b1 :: l1) with ((pre1 ++ [b1]) ++ b1 :: l1)
      by (rewrite <- app_assoc; reflexivity).
    replace (pre2 ++ b2 :: b2 :: l2) with ((pre2 ++ [b2]) ++ b2 :: l2)
      by (rewrite <- app_assoc; reflexivity).
    replace (S (length pre2)) with (length (pre1 ++ [b1]))
      by (rewrite length_app, Hpre; simpl; lia).
    rewrite IH.
    + rewrite <- !app_assoc. reflexivity.
    + rewrite !length_app, Hpre. reflexivity.
    + simpl in *. lia.
    + simpl in *. lia.
Qed.

(** The shifting loop on lists too short for the number of poses asked
    for. *)
Lemma shift_trails_short (k : nat) :
  forall (pre1 l1 : list (R * R)) (pre2 l2 : list R),
    length pre1 = length pre2 ->
    length l1 = length l2 -> (length l1 <= k)%nat -> (1 <= k)%nat ->
    snd (env.shift_trails (seq (length pre1) k)
           {| env.carttrans := pre1 ++ l1; env.poletrans := pre2 ++ l2 |})
    = py.Raise py.IndexError.
Proof.
  induction k as [|k IH]; intros pre1 l1 pre2 l2 Hpre Hl Hk Hk1.
  - lia.
  - cbn [seq env.shift_trails env.carttrans env.poletrans].
    destruct l1 as [|a1 [|b1 l1]].
    + rewrite copy_next_short by (simpl; lia). reflexivity.
    + rewrite copy_next_short by (simpl; lia). reflexivity.
    + destruct l2 as [|a2 [|b2 l2]]; try discriminate.
      rewrite copy_next_app, Hpre, copy_next_app.
      replace (pre1 ++ b1 :: b1 :: l1) with ((pre1 ++ [b1]) ++ b1 :: l1)
        by (rewrite <- app_assoc; reflexivity).
      replace (pre2 ++ b2 :: b2 :: l2) with ((pre2 ++ [b2]) ++ b2 :: l2)
        by (rewrite <- app_assoc; reflexivity).
      replace (S (length pre2)) with (length (pre1 ++ [b1]))
        by (rewrite length_app, Hpre; simpl; lia).
      apply IH.
      * rewrite !length_app, Hpre. reflexivity.
      * simpl in *. lia.
      * simpl in *. lia.
      * simpl in *. lia.
Qed.

Lemma set_last_snoc {X : Type} (m : list X) (z v : X) :
  env.set_last (m ++ [z]) v = py.Ok (m ++ [v]).
Proof.
  unfold env.set_last. destruct (m ++ [z]) eqn:E.
  - destruct m; discriminate.
  - rewrite <- E, length_app. simpl.
    replace (length m + 1 - 1)%nat with (length m) by lia.
    rewrite set_item_app. reflexivity.
Qed.

Lemma skipn_last {X : Type} (k : nat) (l : list X) :
  length l = S k -> exists z, skipn k l = [z].
Proof.
  revert l; induction k as [|k IH]; intros [|a l] H; try discriminate.
  - destruct l; [| discriminate]. exists a. reflexivity.
  - simpl. apply IH. simpl in H. lia.
Qed.

(** What [render] does to transforms that are there for exactly the number
    of poses asked for. *)
Lemma render_shifts (self : env.Cartpole) (t : env.Trails) (N : Z)
    (x v th w : R) :
  env.state self = Some [x; v; th; w] ->
  length (env.carttrans t) = Z.to_nat (Z.max 1 N) ->
  length (env.poletrans t) = Z.to_nat (Z.max 1 N) ->
  env.render self (Some t) N
  = (Some {| env.carttrans :=
               tl (env.carttrans t) ++ [(x * (600 / 2.5) + 600 / 2.0, 100)];
             env.poletrans := tl (env.poletrans t) ++ [th + PI] |},
     py.Ok true).
Proof.
  intros Hs Hc Hp. unfold env.render. rewrite Hs.
  cbn [env.unpack_state].
  set (n := Z.to_nat (Z.max 1 N)) in *.
  assert (Hn : (1 <= n)%nat) by (unfold n; lia).
  destruct t as [c p]. cbn [env.carttrans env.poletrans] in *.
  pose proof (shift_trails_ok (n - 1) [] c [] p eq_refl) as Hshift.
  simpl app in Hshift. simpl length in Hshift.
  rewrite Hshift by lia.
  destruct (skipn_last (n - 1) c) as [zc Hzc]; [lia |].
  destruct (skipn_last (n - 1) p) as [zp Hzp]; [lia |].
  cbn [env.carttrans env.poletrans].
  rewrite Hzc, Hzp, !set_last_snoc. reflexivity.
Qed.

(** X25. Once the viewer holds [N] poses, each [render(N)] moves every
    stored cart position and pole angle one place towards the front, drops
    the oldest and stores the current pose, cart at
    [(240 x + 300, 100)] and pole at [theta + PI], last: the transforms hold
    the last [N] poses drawn. *)
Theorem render_keeps_last_poses (self : env.Cartpole) (t : env.Trails)
    (N : Z) (x v th w : R) :
  env.state self = Some [x; v; th; w] ->
  length (env.carttrans t) = Z.to_nat (Z.max 1 N) ->
  length (env.poletrans t) = Z.to_nat (Z.max 1 N) ->
  env.render self (Some t) N
  = (Some {| env.carttrans := tl (env.carttrans t) ++ [(240 * x + 300, 100)];
             env.poletrans := tl (env.poletrans t) ++ [th + PI] |},
     py.Ok true).
Proof.
  intros Hs Hc Hp. rewrite (render_shifts self t N x v th w Hs Hc Hp).
  do 4 f_equal. f_equal. f_equal. lra.
Qed.

Lemma skipn_repeat_all {X : Type} (c : X) (m : nat) :
  skipn m (repeat c m) = [].
Proof. induction m; simpl; auto. Qed.

(** X26. The first [render] of an environment makes [max(1, N)]
    transforms.  All carts are at the current position, but only the last
    pole is at [theta + PI]: the other [N - 1] poles are set to
    [- theta - PI]. *)
Theorem render_first_call (self : env.Cartpole) (N : Z) (x v th w : R) :
  env.state self = Some [x; v; th; w] ->
  let n := Z.to_nat (Z.max 1 N) in
  env.render self None N
  = (Some {| env.carttrans := repeat (240 * x + 300, 100) n;
             env.poletrans := repeat (- th - PI) (n - 1) ++ [th + PI] |},
     py.Ok true).
Proof.
  intros Hs n. unfold env.render. rewrite Hs. cbn [env.unpack_state].
  fold n.
  assert (Hn : (1 <= n)%nat) by (unfold n; lia).
  set (cx := x * (600 / 2.5) + 600 / 2.0).
  assert (Hcx : cx = 240 * x + 300) by (unfold cx; lra).
  pose proof (shift_trails_ok (n - 1) [] (repeat (cx, 100) n)
                [] (repeat (- th - PI) n) eq_refl) as Hshift.
  simpl app in Hshift. simpl length in Hshift.
  rewrite Hshift by (rewrite repeat_length; lia).
  cbn [env.carttrans env.poletrans].
  destruct n as [|m]; [lia |].
  replace (S m - 1)%nat with m by lia.
  change (repeat (cx, 100) (S m)) with ((cx, 100) :: repeat (cx, 100) m).
  change (repeat (- th - PI) (S m))
    with ((- th - PI) :: repeat (- th - PI) m).
  cbn [tl]. rewrite !repeat_cons.
  rewrite !skipn_app, !repeat_length, Nat.sub_diag, !skipn_repeat_all.
  cbn [skipn app]. rewrite !set_last_snoc, Hcx.
  cbn [repeat]. rewrite repeat_cons. reflexivity.
Qed.

(** X27. Asking for more poses than the viewer was made for raises
    [IndexError]. *)
Theorem render_more_poses_raises (self : env.Cartpole) (t : env.Trails)
    (N : Z) (x v th w : R) :
  env.state self = Some [x; v; th; w] ->
  length (env.carttrans t) = length (env.poletrans t) ->
  (length (env.carttrans t) < Z.to_nat (Z.max 1 N))%nat ->
  snd (env.render self (Some t) N) = py.Raise py.IndexError.
Proof.
  intros Hs Hl Hlt. unfold env.render. rewrite Hs.
  cbn [env.unpack_state].
  set (n := Z.to_nat (Z.max 1 N)) in *.
  destruct t as [c p]. cbn [env.carttrans env.poletrans] in *.
  destruct (Nat.eq_dec n 1) as [En | Hn].
  - rewrite En. destruct c; [| simpl in Hlt; lia].
    destruct p; [| discriminate]. reflexivity.
  - pose proof (shift_trails_short (n - 1) [] c [] p eq_refl Hl) as Hshort.
    simpl app in Hshort. simpl length in Hshort.
    assert (Hn1 : (1 <= n)%nat) by (unfold n; lia).
    specialize (Hshort ltac:(lia) ltac:(lia)).
    destruct (env.shift_trails (seq 0 (n - 1))
                {| env.carttrans := c; env.poletrans := p |})
      as [t' [[]|e]]; simpl in Hshort; [discriminate |].
    simpl. injection Hshort as ->. reflexivity.
Qed.

End Render.

Section RenderWitnesses.

Open Scope R_scope.

Lemma render_keeps_last_poses_witness :
  env.render inputs.env_at_1 (Some inputs.two_poses) 2
  = (Some {| env.carttrans :=
               tl (env.carttrans inputs.two_poses) ++ [(240 * 1 + 300, 100)];
             env.poletrans :=
               tl (env.poletrans inputs.two_poses) ++ [2 + PI] |},
     py.Ok true).
Proof.
  apply (render_keeps_last_poses inputs.env_at_1 inputs.two_poses 2
           1 0 2 0); reflexivity.
Defined.

Lemma render_first_call_witness :
  env.render inputs.env_at_1 None 3
  = (Some {| env.carttrans := repeat (240 * 1 + 300, 100) 3;
             env.poletrans := repeat (- 2 - PI) 2 ++ [2 + PI] |},
     py.Ok true).
Proof.
  apply (render_first_call inputs.env_at_1 3 1 0 2 0). reflexivity.
Defined.

Lemma render_more_poses_raises_witness :
  snd (env.render inputs.env_at_1 (Some inputs.two_poses) 3)
  = py.Raise py.IndexError.
Proof.
  apply (render_more_poses_raises inputs.env_at_1 inputs.two_poses 3
           1 0 2 0).
  - reflexivity.
  - reflexivity.
  - simpl. lia.
Defined.

End RenderWitnesses.

(** ** perturb_initial_action *)

Section PerturbInitialAction.

Open Scope R_scope.

Variable S : Type.
Variable randint : nat -> nat -> bool.

Lemma std_some (l : list R) :
  (2 <= length l)%nat -> exists s, core.std l = Some s /\ 0 <= s.
Proof.
  intros H. unfold core.std.
  destruct (Nat.leb_spec (length l) 1) as [Hle | _]; [lia |].
  eexists. split; [reflexivity | apply sqrt_pos].
Qed.

Lemma std0_some (cols : list nat) (A : list (list R)) :
  (2 <= length A)%nat ->
  exists sd, core.std0 cols A = Some sd
             /\ length sd = length cols /\ Forall (fun s => 0 <= s) sd.
Proof.
  intros H. induction cols as [|j cols IH]; simpl.
  - exists []. repeat split. constructor.
  - destruct (std_some (core.column j A)) as [s [-> Hs]].
    { unfold core.column. rewrite length_map. exact H. }
    destruct IH as [sd [-> [Hlen Hpos]]].
    exists (s :: sd). repeat split; [simpl; congruence | constructor; auto].
Qed.

Lemma perturb_row_increases (bits : list bool) (sd row : list R) :
  length bits = length row -> length sd = length row ->
  Forall (fun s => 0 <= s) sd ->
  Forall2 (fun a a' => a <= a'
                       /\ exists s, In s sd /\ (a' = a \/ a' = a + 1e-1 * s))
    row (core.perturb_row bits sd row).
Proof.
  revert bits sd; induction row as [|a row IH]; intros bits sd Hb Hs Hpos.
  - destruct bits, sd; simpl; constructor.
  - destruct bits as [|b bits], sd as [|s sd]; try discriminate.
    inversion Hpos as [|? ? Hs0 Hpos']; subst.
    simpl. constructor.
    + destruct b; split; try lra.
      * exists s. split; [left; reflexivity | right; lra].
      * exists s. split; [left; reflexivity | left; lra].
    + simpl in Hb, Hs.
      eapply Forall2_impl; [| apply IH; try lia; assumption].
      intros x y [Hxy [s' [Hin Hcase]]]. split; [exact Hxy |].
      exists s'. split; [right; exact Hin | exact Hcase].
Qed.


End PerturbInitialAction.

